(** * The NMT node codec of the IPLD plugin

    A shallow embedding of [p2p/ipld/plugin/nodes/nodes.go]: the multihash
    registration, the identifier of a namespaced hash, the block parser, the
    two node variants with their methods, and the collector visitor.

    Conventions of the embedding.
    - A Go byte slice is a [list byte]; a [nil] slice is the empty list
      ([len], [append], [copy] and [bytes.Equal] do not tell them apart).
    - A Go function returning [(v, error)] returns an [outcome]: every
      [return] of this file that carries a non-nil error carries the zero
      value ([nil], [cid.Undef], [cid.Cid{}]) next to it, so [Fails] holds
      the error message alone.  A run-time panic is the third case.
    - The process-wide tables of go-multihash are an explicit [registry]
      threaded through the functions that read or write them. *)

From Stdlib Require Import NArith ZArith Strings.Byte Strings.Ascii.
From stdpp Require Import base option list strings pretty gmap.

#[global] Instance byte_eq_decision : EqDecision byte := Byte.byte_eq_dec.

(** ** Outcomes of Go calls *)

Inductive runtime_fault : Type :=
  | IndexOutOfRange
  | SliceBoundsOutOfRange
  | NilDereference.

Inductive panic_value : Type :=
  | RuntimeError (fault : runtime_fault)
  | PanicString (msg : string).

Inductive outcome (A : Type) : Type :=
  | Returns (a : A)
  | Fails (err : string)
  | Panics (v : panic_value).

Arguments Returns {A} a.
Arguments Fails {A} err.
Arguments Panics {A} v.

#[global] Instance outcome_ret : MRet outcome := @Returns.
#[global] Instance outcome_bind : MBind outcome := λ A B f m,
  match m with
  | Returns a => f a
  | Fails err => Fails err
  | Panics v => Panics v
  end.

(** ** Go slices and the formatting verbs the file uses *)

Module Go.

(** [s[i]] *)
Definition index {A} (s : list A) (i : nat) : outcome A :=
  match s !! i with
  | Some a => Returns a
  | None => Panics (RuntimeError IndexOutOfRange)
  end.

(** [s[lo:hi]].  The bound is the length: the run time checks [hi]
    against the capacity, but each slicing below comes with a [s[n:]] of
    the same slice, which faults whenever [n] exceeds the length. *)
Definition slice {A} (s : list A) (lo hi : nat) : outcome (list A) :=
  if bool_decide (lo ≤ hi ∧ hi ≤ length s)
  then Returns (take (hi - lo) (drop lo s))
  else Panics (RuntimeError SliceBoundsOutOfRange).

(** [s[lo:]] and [s[:hi]] *)
Definition slice_from {A} (s : list A) (lo : nat) : outcome (list A) :=
  slice s lo (length s).
Definition slice_to {A} (s : list A) (hi : nat) : outcome (list A) :=
  slice s 0 hi.

(** [make([]byte, n)] *)
Definition make (n : nat) : list byte := replicate n x00.

(** [copy(dst, src)]: the new contents of [dst] (memmove semantics, the
    source is read as it was before the call). *)
Definition copy {A} (dst src : list A) : list A :=
  take (length dst `min` length src) src
    ++ drop (length dst `min` length src) dst.

(** [bytes.Equal] *)
Definition bytes_Equal (a b : list byte) : bool := bool_decide (a = b).

Definition hexdigit (upper : bool) (d : N) : ascii :=
  if (d <? 10)%N then ascii_of_N (48 + d)
  else ascii_of_N ((if upper then 55 else 87) + d).

(** [%x] on a byte slice: two lower-case hex digits per byte. *)
Definition fmt_x_byte (b : byte) : string :=
  String (hexdigit false (Byte.to_N b / 16))
    (String (hexdigit false (Byte.to_N b mod 16)) EmptyString).
Definition fmt_x (bs : list byte) : string :=
  foldr (λ b s, fmt_x_byte b +:+ s) EmptyString bs.

(** [%X] on a [uint64]: upper-case hex, no leading zeros. *)
Fixpoint fmt_X_go (fuel : nat) (x : N) (acc : string) : string :=
  match fuel with
  | O => acc
  | S fuel =>
      let acc := String (hexdigit true (x mod 16)) acc in
      if (x / 16 =? 0)%N then acc else fmt_X_go fuel (x / 16) acc
  end.
Definition fmt_X (x : N) : string := fmt_X_go 16 x EmptyString.

(** [strings.Contains] *)
Fixpoint Contains (s sub : string) : bool :=
  String.prefix sub s ||
  match s with
  | EmptyString => false
  | String _ s' => Contains s' sub
  end.

End Go.

(** ** Constants of the plugin and of the NMT library *)

Definition Nmt : N := 0x7700.
Definition NmtCodecName : string := "nmt-node".
Definition Sha256Namespace8Flagged : N := 0x7701.
Definition namespaceSize : nat := 8.
Definition shareSize : nat := 256.
Definition sha256_Size : nat := 32.
Definition nmtHashSize : nat := 2 * namespaceSize + sha256_Size.

(** [nmt.LeafPrefix] and [nmt.NodePrefix], the domain separators. *)
Definition LeafPrefix : byte := x00.
Definition NodePrefix : byte := x01.

(** ** The go-multihash and go-cid collaborators

    Neither library belongs to the repository; what the plugin calls is
    modelled here: the tables, [ValidCode], [RegisterHashFunc], [Encode],
    [Decode] and the varint framing they share. *)

Definition HashFunc : Type := list byte → Z → outcome (list byte).

Record registry : Type := Registry {
  Codes : gmap N string;
  Names : gmap string N;
  DefaultLengths : gmap N Z;
  funcTable : gmap N HashFunc
}.

Module mh.

Definition ErrUnknownCode : string := "unknown multihash code".
Definition ErrTooShort : string := "multihash too short. must be >= 2 bytes".
Definition ErrVarintBufferShort : string :=
  "uvarint: buffer too small".
Definition ErrVarintTooLong : string :=
  "uvarint: varint too big (max 64bit)".
Definition ErrInconsistentLen : string :=
  "multihash length inconsistent".

(** [_, ok := Codes[code]] *)
Definition ValidCode (reg : registry) (code : N) : bool :=
  bool_decide (is_Some (Codes reg !! code)).

(** [Codes[code]] read as a value: the empty string when absent. *)
Definition CodeName (reg : registry) (code : N) : string :=
  default EmptyString (Codes reg !! code).

Definition RegisterHashFunc (code : N) (hashFunc : HashFunc)
    (reg : registry) : registry * option string :=
  if negb (ValidCode reg code)
  then (reg, Some ("code " +:+ pretty code +:+ " not valid"))
  else if bool_decide (is_Some (funcTable reg !! code))
  then (reg, Some ("hash func for code " +:+ pretty code
                     +:+ " already registered"))
  else (Registry (Codes reg) (Names reg) (DefaultLengths reg)
          (<[code := hashFunc]> (funcTable reg)), None).

Definition byte_of_N (n : N) : byte :=
  default x00 (Byte.of_N (n mod 256)).

(** [binary.PutUvarint]; a [uint64] needs at most ten groups of seven
    bits, so the loop is unrolled over that bound. *)
Fixpoint PutUvarint_go (fuel : nat) (x : N) : list byte :=
  match fuel with
  | O => [byte_of_N x]
  | S fuel =>
      if (0x80 <=? x)%N
      then byte_of_N (N.lor (x mod 256) 0x80)
             :: PutUvarint_go fuel (N.shiftr x 7)
      else [byte_of_N x]
  end.
Definition PutUvarint (x : N) : list byte := PutUvarint_go 9 x.

(** [binary.Uvarint] wrapped as go-multihash's [uvarint]: the value and
    the rest of the buffer. *)
Fixpoint Uvarint_go (buf : list byte) (i : nat) (s : N) (x : N)
    : outcome (N * list byte) :=
  match buf with
  | [] => Fails ErrVarintBufferShort
  | b :: buf' =>
      let v := Byte.to_N b in
      if (v <? 0x80)%N then
        if bool_decide (9 < i) || (bool_decide (i = 9) && (1 <? v)%N)
        then Fails ErrVarintTooLong
        else Returns (N.lor x (N.shiftl v s), buf')
      else Uvarint_go buf' (S i) (s + 7)%N
             (N.lor x (N.shiftl (N.land v 0x7f) s))
  end.
Definition uvarint (buf : list byte) : outcome (N * list byte) :=
  Uvarint_go buf 0 0%N 0%N.

Definition Encode (reg : registry) (buf : list byte) (code : N)
    : outcome (list byte) :=
  if negb (ValidCode reg code) then Fails ErrUnknownCode
  else Returns (PutUvarint code
                  ++ PutUvarint (N.of_nat (length buf)) ++ buf).

Record DecodedMultihash : Type := {
  Code : N;
  Name : string;
  Length : nat;
  Digest : list byte
}.

Definition Decode (reg : registry) (buf : list byte)
    : outcome DecodedMultihash :=
  if bool_decide (length buf < 2) then Fails ErrTooShort
  else
    '(code, buf) ← uvarint buf;
    '(len, buf) ← uvarint buf;
    if (0x7fffffff <? len)%N
    then Fails "digest too long, supporting only <= 2^31-1"
    else if bool_decide (length buf ≠ N.to_nat len)
    then Fails ErrInconsistentLen
    else Returns {| Code := code; Name := CodeName reg code;
                    Length := N.to_nat len; Digest := buf |}.

End mh.

(** [cid.Cid]: the undefined identifier ([cid.Undef], also [cid.Cid{}]) or
    a version-1 identifier, a codec with a multihash. *)
Inductive Cid : Type :=
  | Undef
  | CidV1 (codecType : N) (mhash : list byte).

Definition NewCidV1 (codecType : N) (mhash : list byte) : Cid :=
  CidV1 codecType mhash.

(** [Cid.Type] and [Cid.Hash] *)
Definition Cid_Type (c : Cid) : N :=
  match c with Undef => 0%N | CidV1 t _ => t end.
Definition Cid_Hash (c : Cid) : list byte :=
  match c with Undef => [] | CidV1 _ h => h end.

(** ** Identifiers of namespaced hashes *)

Definition CidFromNamespacedSha256 (reg : registry)
    (namespacedHash : list byte) : outcome Cid :=
  let got := length namespacedHash in
  let want := nmtHashSize in
  if bool_decide (got ≠ want)
  then Fails ("invalid namespaced hash length, got: " +:+ pretty got
                +:+ ", want: " +:+ pretty want)
  else
    match mh.Encode reg namespacedHash Sha256Namespace8Flagged with
    | Returns buf => Returns (NewCidV1 Nmt buf)
    | Fails err => Fails err
    | Panics v => Panics v
    end.

Definition mustCidFromNamespacedSha256 (reg : registry)
    (hash : list byte) : outcome Cid :=
  match CidFromNamespacedSha256 reg hash with
  | Returns cid => Returns cid
  | Fails err =>
      Panics (PanicString ("malformed hash: " +:+ err +:+ ", codec: "
                             +:+ mh.CodeName reg Sha256Namespace8Flagged))
  | Panics v => Panics v
  end.

(** ** Registration *)

Definition mustRegisterNamespacedCodec (codec : N) (name : string)
    (defaultLength : Z) (hashFunc : HashFunc) (reg : registry)
    : outcome registry :=
  if negb (bool_decide (is_Some (Codes reg !! codec))) then
    if bool_decide (is_Some (Codes reg !! codec)) then
      Panics (PanicString ("Codec 0x" +:+ Go.fmt_X codec
                             +:+ " is already present: "
                             +:+ mh.CodeName reg codec))
    else
      let reg := Registry (<[codec := name]> (Codes reg))
                          (<[name := codec]> (Names reg))
                          (<[codec := defaultLength]> (DefaultLengths reg))
                          (funcTable reg) in
      match mh.RegisterHashFunc codec hashFunc reg with
      | (reg, None) => Returns reg
      | (reg, Some _) =>
          Panics (PanicString ("could not register hash function: "
                                 +:+ mh.CodeName reg codec))
      end
  else Returns reg.

(** ** The NMT hasher handed to the registry

    [nmt.Sha256Namespace8FlaggedLeaf] and [nmt.Sha256Namespace8FlaggedInner]
    belong to the NMT library.  Their Go signature is [func([]byte) []byte]:
    no error among the results, but both slice their argument and panic on
    an input that is too short.  They are modelled as far as that: the
    slicing they do themselves is written out, the SHA-256 digest of a leaf
    and the library's [HashNode] of two child hashes enter as parameters,
    the latter free to panic as well. *)

(** A Go call with no error among its results: it returns or it panics. *)
Inductive callResult (A : Type) : Type :=
  | Done (a : A)
  | Faulted (v : panic_value).

Arguments Done {A} a.
Arguments Faulted {A} v.

Definition called {A} (r : callResult A) : outcome A :=
  match r with
  | Done a => Returns a
  | Faulted v => Panics v
  end.

Module nmt.

(** [HashLeaf]: the namespace is [leaf[:8]]; the hash is the namespace
    twice, as lower and upper bound, before the digest of the leaf. *)
Definition Sha256Namespace8FlaggedLeaf (leafDigest : list byte → list byte)
    (namespacedData : list byte) : callResult (list byte) :=
  if bool_decide (namespaceSize ≤ length namespacedData) then
    let nID := take namespaceSize namespacedData in
    Done (nID ++ nID ++ leafDigest namespacedData)
  else Faulted (RuntimeError SliceBoundsOutOfRange).

(** [left := leftRight[:flagLen+sha256Len]], [right] the bytes after, then
    [HashNode] on the two. *)
Definition Sha256Namespace8FlaggedInner
    (HashNode : list byte → list byte → callResult (list byte))
    (leftRight : list byte) : callResult (list byte) :=
  let flagLen := namespaceSize * 2 in
  let sha256Len := sha256_Size in
  if bool_decide (flagLen + sha256Len ≤ length leftRight) then
    let left := take (flagLen + sha256Len) leftRight in
    let right := drop (flagLen + sha256Len) leftRight in
    HashNode left right
  else Faulted (RuntimeError SliceBoundsOutOfRange).

End nmt.

Section Hasher.

Variable leafDigest : list byte → list byte.
Variable HashNode : list byte → list byte → callResult (list byte).

Definition sumSha256Namespace8Flagged (data : list byte) (_length : Z)
    : outcome (list byte) :=
  d0 ← Go.index data 0;
  let isLeafData := bool_decide (d0 = LeafPrefix) in
  if isLeafData then
    rest ← Go.slice_from data 1;
    called (nmt.Sha256Namespace8FlaggedLeaf leafDigest rest)
  else
    rest ← Go.slice_from data 1;
    called (nmt.Sha256Namespace8FlaggedInner HashNode rest).

(** The part of [init] that touches the multihash tables. *)
Definition init (reg : registry) : outcome registry :=
  mustRegisterNamespacedCodec Sha256Namespace8Flagged
    "sha2-256-namespace8-flagged" (Z.of_nat nmtHashSize)
    sumSha256Namespace8Flagged reg.

End Hasher.

(** ** Blocks, links and the two node variants *)

Record Block : Type := {
  block_RawData : list byte;
  block_Cid : Cid
}.

Record Link : Type := { Link_Cid : Cid }.

Module nmtNode.

Record t : Type := { cid : Cid; l : list byte; r : list byte }.

(** [append([]byte{nmt.NodePrefix}, append(n.l, n.r...)...)].  The inner
    [append] may write into the spare capacity behind [n.l]; its result is
    [n.l] followed by [n.r] in either case, and on a node made by the
    parser the bytes behind [n.l] are those of [n.r] already. *)
Definition RawData (n : t) : list byte :=
  [NodePrefix] ++ (l n ++ r n).

Definition Cid (n : t) : Cid := cid n.

Definition Resolve (reg : registry) (n : t) (path : list string)
    : outcome (Link * list string) :=
  step ← Go.index path 0;
  if bool_decide (step = "0") then
    left ← CidFromNamespacedSha256 reg (l n);
    rest ← Go.slice_from path 1;
    Returns ({| Link_Cid := left |}, rest)
  else if bool_decide (step = "1") then
    right ← CidFromNamespacedSha256 reg (r n);
    rest ← Go.slice_from path 1;
    Returns ({| Link_Cid := right |}, rest)
  else Fails "invalid path for inner node".

Definition ResolveLink (reg : registry) (n : t) (path : list string)
    : outcome (Link * list string) :=
  '(obj, rest) ← Resolve reg n path;
  Returns (obj, rest).

(** The copy, before it is wrapped as a [node.Node]. *)
Definition Copy (n : t) : t :=
  let l' := Go.make (length (l n)) in
  let l' := Go.copy l' (l n) in
  let r' := Go.make (length (r n)) in
  let r' := Go.copy r' (r n) in
  {| cid := cid n; l := l'; r := r' |}.

Definition Links (reg : registry) (n : t) : outcome (list Link) :=
  leftCid ← mustCidFromNamespacedSha256 reg (l n);
  rightCid ← mustCidFromNamespacedSha256 reg (r n);
  Returns [ {| Link_Cid := leftCid |}; {| Link_Cid := rightCid |} ].

End nmtNode.

Module nmtLeafNode.

Record t : Type := { cid : Cid; Data : list byte }.

Definition RawData (lf : t) : list byte :=
  [LeafPrefix] ++ Data lf.

Definition Cid (lf : t) : Cid := cid lf.

Definition Resolve (lf : t) (path : list string)
    : outcome (Link * list string) :=
  Fails "invalid path for leaf node".

Definition ResolveLink (lf : t) (path : list string)
    : outcome (Link * list string) :=
  '(obj, rest) ← Resolve lf path;
  Returns (obj, rest).

Definition Copy (lf : t) : outcome t :=
  Panics (PanicString "implement me").

Definition Links (lf : t) : list Link := [ {| Link_Cid := Cid lf |} ].

End nmtLeafNode.

(** A value of the interface [node.Node]: [nil], or one of the two
    implementations of this file. *)
Inductive Node : Type :=
  | nilNode
  | innerNode (n : nmtNode.t)
  | leafNode (lf : nmtLeafNode.t).

(** Method calls through the interface; a call on [nil] faults. *)
Definition Node_RawData (nd : Node) : outcome (list byte) :=
  match nd with
  | nilNode => Panics (RuntimeError NilDereference)
  | innerNode n => Returns (nmtNode.RawData n)
  | leafNode lf => Returns (nmtLeafNode.RawData lf)
  end.

Definition Node_Cid (nd : Node) : outcome Cid :=
  match nd with
  | nilNode => Panics (RuntimeError NilDereference)
  | innerNode n => Returns (nmtNode.Cid n)
  | leafNode lf => Returns (nmtLeafNode.Cid lf)
  end.

Definition Node_Resolve (reg : registry) (nd : Node) (path : list string)
    : outcome (Link * list string) :=
  match nd with
  | nilNode => Panics (RuntimeError NilDereference)
  | innerNode n => nmtNode.Resolve reg n path
  | leafNode lf => nmtLeafNode.Resolve lf path
  end.

Definition Node_Copy (nd : Node) : outcome Node :=
  match nd with
  | nilNode => Panics (RuntimeError NilDereference)
  | innerNode n => Returns (innerNode (nmtNode.Copy n))
  | leafNode lf => lf' ← nmtLeafNode.Copy lf; Returns (leafNode lf')
  end.

(** ** The block parser *)

Definition prefixOffset : nat := 1.

Definition domainSeparatorError (leafPrefix innerPrefix domainSeparator
    : list byte) : string :=
  "expected first byte of block to be either the leaf or inner node prefix: ("
    +:+ Go.fmt_x leafPrefix +:+ ", " +:+ Go.fmt_x innerPrefix
    +:+ "), got: " +:+ Go.fmt_x domainSeparator +:+ ")".

Definition NmtNodeParser (block : Block) : outcome Node :=
  let leafPrefix := [LeafPrefix] in
  let innerPrefix := [NodePrefix] in
  let data := block_RawData block in
  if bool_decide (length data = 0) then
    Returns (leafNode {| nmtLeafNode.cid := Undef; nmtLeafNode.Data := [] |})
  else
    domainSeparator ← Go.slice_to data prefixOffset;
    if Go.bytes_Equal domainSeparator leafPrefix then
      payload ← Go.slice_from data prefixOffset;
      Returns (leafNode {| nmtLeafNode.cid := block_Cid block;
                           nmtLeafNode.Data := payload |})
    else if Go.bytes_Equal domainSeparator innerPrefix then
      left ← Go.slice data prefixOffset (prefixOffset + nmtHashSize);
      right ← Go.slice_from data (prefixOffset + nmtHashSize);
      Returns (innerNode {| nmtNode.cid := block_Cid block;
                            nmtNode.l := left; nmtNode.r := right |})
    else
      Fails (domainSeparatorError leafPrefix innerPrefix domainSeparator).

(** ** The collector visitor *)

Definition prependNode (newNode : Node) (nodes : list Node) : list Node :=
  let nodes := nodes ++ [nilNode] in
  let nodes := take 1 nodes ++ Go.copy (drop 1 nodes) nodes in
  <[0 := newNode]> nodes.

Record nmtNodeCollector : Type := { nodes : list Node }.

Definition newNodeCollector : nmtNodeCollector := {| nodes := [] |}.

Definition ipldNodes (n : nmtNodeCollector) : list Node := nodes n.

(** What [visit] prepends: the typed node of one callback. *)
Definition visitNode (reg : registry) (hash : list byte)
    (children : list (list byte)) : outcome Node :=
  cid ← mustCidFromNamespacedSha256 reg hash;
  match length children with
  | 1 =>
      c0 ← Go.index children 0;
      Returns (leafNode {| nmtLeafNode.cid := cid; nmtLeafNode.Data := c0 |})
  | 2 =>
      c0 ← Go.index children 0;
      c1 ← Go.index children 1;
      Returns (innerNode {| nmtNode.cid := cid;
                            nmtNode.l := c0; nmtNode.r := c1 |})
  | _ => Panics (PanicString "expected a binary tree")
  end.

Definition visit (reg : registry) (n : nmtNodeCollector)
    (hash : list byte) (children : list (list byte))
    : outcome nmtNodeCollector :=
  newNode ← visitNode reg hash children;
  Returns {| nodes := prependNode newNode (nodes n) |}.

(** One callback of the NMT: the hash and the children it passes. *)
Definition emission : Type := list byte * list (list byte).

(** The callbacks in the order they arrive, each on the collector the
    previous one left; a panic ends the run. *)
Fixpoint visitAll (reg : registry) (n : nmtNodeCollector)
    (es : list emission) : outcome nmtNodeCollector :=
  match es with
  | [] => Returns n
  | (hash, children) :: es' =>
      n' ← visit reg n hash children;
      visitAll reg n' es'
  end.

Definition collect (reg : registry) (es : list emission)
    : outcome (list Node) :=
  n ← visitAll reg newNodeCollector es;
  Returns (ipldNodes n).

(** The NMT as the visitor sees it: a non-empty binary tree whose nodes
    carry their namespaced hash, visited children first, the root last.
    A leaf passes its namespaced data, an inner node the hashes of its two
    children. *)
Inductive nmtTree : Type :=
  | TLeaf (hash : list byte) (data : list byte)
  | TInner (hash : list byte) (left right : nmtTree).

Definition rootHash (t : nmtTree) : list byte :=
  match t with TLeaf h _ => h | TInner h _ _ => h end.

Fixpoint postOrder (t : nmtTree) : list emission :=
  match t with
  | TLeaf h d => [(h, [d])]
  | TInner h lt rt =>
      postOrder lt ++ postOrder rt ++ [(h, [rootHash lt; rootHash rt])]
  end.

Fixpoint hashesSized (t : nmtTree) : Prop :=
  length (rootHash t) = nmtHashSize ∧
  match t with
  | TLeaf _ _ => True
  | TInner _ lt rt => hashesSized lt ∧ hashesSized rt
  end.

(** The state [init] leaves the tables in: the multihash code of the plugin
    is present (see [init_registered]). *)
Definition registered (reg : registry) : Prop :=
  is_Some (Codes reg !! Sha256Namespace8Flagged).

(** A block as the data model lays it out: a leaf prefix before any
    payload, or the inner prefix before two namespaced hashes. *)
Inductive wellFormedBlock : list byte → Prop :=
  | wf_leaf payload : wellFormedBlock ([LeafPrefix] ++ payload)
  | wf_inner left right :
      length left = nmtHashSize → length right = nmtHashSize →
      wellFormedBlock ([NodePrefix] ++ left ++ right).

(** The multihash of a namespaced hash: the varint of the code, the varint
    of the length 48, the hash itself. *)
Definition namespacedMultihash (nh : list byte) : list byte :=
  [x81; xee; x01; x30] ++ nh.

(** ** Sample values *)

(** The tables once the plugin has registered its code and nothing else
    has. *)
Definition pluginRegistry (hashFunc : HashFunc) : registry :=
  Registry {[ Sha256Namespace8Flagged := "sha2-256-namespace8-flagged" ]}
           {[ "sha2-256-namespace8-flagged" := Sha256Namespace8Flagged ]}
           {[ Sha256Namespace8Flagged := Z.of_nat nmtHashSize ]}
           {[ Sha256Namespace8Flagged := hashFunc ]}.

(** The tables when another package took the code first, under another
    name and digest length. *)
Definition foreignRegistry : registry :=
  Registry {[ Sha256Namespace8Flagged := "foreign-hash" ]}
           {[ "foreign-hash" := Sha256Namespace8Flagged ]}
           {[ Sha256Namespace8Flagged := 32%Z ]}
           ∅.

Definition emptyRegistry : registry := Registry ∅ ∅ ∅ ∅.

Definition zeroHashFunc : HashFunc := λ _ _, Returns [].

(** A digest and a node hasher to run the hash function on: the digest of
    every leaf is 32 zero bytes, the hash of two children is the first. *)
Definition zeroDigest (leaf : list byte) : list byte :=
  replicate sha256_Size x00.

Definition firstChild (left right : list byte) : callResult (list byte) :=
  Done left.

Definition zeroHash : list byte := replicate nmtHashSize x00.

(** An inner block of 98 bytes, one more than the layout allows. *)
Definition oversizedInnerBlock : Block :=
  {| block_RawData := NodePrefix :: replicate 97 x00; block_Cid := Undef |}.

(** An inner block cut after its prefix. *)
Definition truncatedInnerBlock : Block :=
  {| block_RawData := [NodePrefix]; block_Cid := Undef |}.

(** An inner block of the right size, 97 bytes. *)
Definition sizedInnerBlock : Block :=
  {| block_RawData := [NodePrefix] ++ zeroHash ++ zeroHash;
     block_Cid := NewCidV1 Nmt (namespacedMultihash zeroHash) |}.

(** A three-node tree. *)
Definition sampleTree : nmtTree :=
  TInner zeroHash (TLeaf zeroHash [x01]) (TLeaf zeroHash [x02]).

(** ** The remaining methods of the nodes *)

Definition nmtNode_Tree (n : nmtNode.t) (path : string) (depth : Z)
    : outcome (list string) :=
  if bool_decide (path ≠ EmptyString) || bool_decide (depth ≠ (-1)%Z)
  then Panics (PanicString "proper tree not yet implemented")
  else Returns ["0"; "1"].

Definition nmtLeafNode_Tree (lf : nmtLeafNode.t) (_path : string)
    (_depth : Z) : list string := [].

(** ** The adder visitor

    [format.Batch] belongs to go-ipld-format; it enters as a state with its
    [Add], which returns the new state and the error of the call. *)

Section Adder.

Variable Batch : Type.
Variable Context : Type.
Variable batch_Add : Batch → Context → Node → Batch * option string.

Record NmtNodeAdder : Type := { batch : Batch; ctx : Context }.

Definition NewNmtNodeAdder (c : Context) (b : Batch) : NmtNodeAdder :=
  {| batch := b; ctx := c |}.

(** [Visit] drops the error [batch.Add] returns. *)
Definition NmtNodeAdder_Visit (reg : registry) (n : NmtNodeAdder)
    (hash : list byte) (children : list (list byte))
    : outcome NmtNodeAdder :=
  cid ← mustCidFromNamespacedSha256 reg hash;
  match length children with
  | 1 =>
      c0 ← Go.index children 0;
      Returns {| batch :=
        (batch_Add (batch n) (ctx n)
           (leafNode {| nmtLeafNode.cid := cid;
                        nmtLeafNode.Data := c0 |})).1;
                 ctx := ctx n |}
  | 2 =>
      c0 ← Go.index children 0;
      c1 ← Go.index children 1;
      Returns {| batch :=
        (batch_Add (batch n) (ctx n)
           (innerNode {| nmtNode.cid := cid;
                         nmtNode.l := c0; nmtNode.r := c1 |})).1;
                 ctx := ctx n |}
  | _ => Panics (PanicString "expected a binary tree")
  end.

Definition NmtNodeAdder_Batch (n : NmtNodeAdder) : Batch := batch n.

(** The callbacks in the order they arrive, as [visitAll] for the
    collector. *)
Fixpoint adderVisitAll (reg : registry) (n : NmtNodeAdder)
    (es : list emission) : outcome NmtNodeAdder :=
  match es with
  | [] => Returns n
  | (hash, children) :: es' =>
      n' ← NmtNodeAdder_Visit reg n hash children;
      adderVisitAll reg n' es'
  end.

End Adder.

(** ** The raw input parser

    The NMT enters as a state with [Push], which validates and stores a
    leaf, and [Root], whose computation fires the visitor callbacks (the
    source calls it for that effect alone).  The reader is a finite byte
    stream that ends in [io.EOF]. *)

Inductive readResult : Type :=
  | ReadEOF
  | ReadUnexpectedEOF
  | ReadOk (buf rest : list byte).

(** [io.ReadFull(br, buf)] with [len(buf) = n], [n] positive. *)
Definition io_ReadFull (br : list byte) (n : nat) : readResult :=
  if bool_decide (length br = 0) then ReadEOF
  else if bool_decide (length br < n) then ReadUnexpectedEOF
  else ReadOk (take n br) (drop n br).

Definition ErrUnexpectedEOF : string := "unexpected EOF".

Section RawInputParser.

Variable nmtT : Type.
Variable nmt_New : nmtT.
Variable nmt_Push : nmtT → list byte → list byte → nmtT * option string.
Variable nmt_Root : nmtT → list emission.

(** The reading loop; each turn consumes a record, so [fuel] turns are
    enough for an input of [fuel] bytes. *)
Fixpoint readLeaves (fuel : nat) (n : nmtT) (br : list byte)
    : outcome nmtT :=
  match io_ReadFull br (shareSize + namespaceSize) with
  | ReadEOF => Returns n
  | ReadUnexpectedEOF => Fails ErrUnexpectedEOF
  | ReadOk namespacedLeaf br' =>
      match fuel with
      | O => Returns n
      | S fuel =>
          match nmt_Push n (take namespaceSize namespacedLeaf)
                           (drop namespaceSize namespacedLeaf) with
          | (_, Some err) => Fails err
          | (n', None) => readLeaves fuel n' br'
          end
      end
  end.

Definition DataSquareRowOrColumnRawInputParser (reg : registry)
    (r : list byte) : outcome (list Node) :=
  n ← readLeaves (length r) nmt_New r;
  collect reg (nmt_Root n).

(** The leaves one after the other, as the loop pushes them. *)
Fixpoint pushAll (n : nmtT) (leaves : list (list byte)) : outcome nmtT :=
  match leaves with
  | [] => Returns n
  | leaf :: leaves' =>
      match nmt_Push n (take namespaceSize leaf)
                       (drop namespaceSize leaf) with
      | (_, Some err) => Fails err
      | (n', None) => pushAll n' leaves'
      end
  end.

End RawInputParser.

(** ** Shapes of callbacks and trees *)

(** The callback of the root of a tree. *)
Definition rootEmission (t : nmtTree) : emission :=
  match t with
  | TLeaf h d => (h, [d])
  | TInner h lt rt => (h, [rootHash lt; rootHash rt])
  end.

(** A callback [visit] accepts: a hash of the namespaced size with one or
    two children. *)
Definition visitable (e : emission) : Prop :=
  length e.1 = nmtHashSize ∧ (length e.2 = 1 ∨ length e.2 = 2).

(** A callback whose first child, when there are two, has the namespaced
    size. *)
Definition leftSized (e : emission) : Prop :=
  ∀ left right, e.2 = [left; right] → length left = nmtHashSize.

(** The block a node is stored as: its raw bytes under its identifier. *)
Definition blockOf (nd : Node) : outcome Block :=
  raw ← Node_RawData nd;
  c ← Node_Cid nd;
  Returns {| block_RawData := raw; block_Cid := c |}.

(** A log of nodes as a batch: [Add] appends and reports no error. *)
Definition logAdd (b : list Node) (_ctx : unit) (nd : Node)
    : list Node * option string :=
  (b ++ [nd], None).

(** An NMT that stores its leaves and fires no callback. *)
Definition silentPush (n : list (list byte)) (ns data : list byte)
    : list (list byte) * option string :=
  (n ++ [ns ++ data], None).

(** * Properties *)

(** ** The framing and the formatting, on the plugin's constants *)

Example PutUvarint_code :
  mh.PutUvarint Sha256Namespace8Flagged = [x81; xee; x01].
Proof. reflexivity. Qed.

Example PutUvarint_size :
  mh.PutUvarint (N.of_nat nmtHashSize) = [x30].
Proof. reflexivity. Qed.

Example uvarint_code (rest : list byte) :
  mh.uvarint ([x81; xee; x01] ++ rest)
    = Returns (Sha256Namespace8Flagged, rest).
Proof. reflexivity. Qed.

Example fmt_X_code : Go.fmt_X Sha256Namespace8Flagged = "7701".
Proof. reflexivity. Qed.

Example fmt_x_bytes : Go.fmt_x [x00; x42; xff] = "0042ff".
Proof. reflexivity. Qed.

Example pretty_size : pretty nmtHashSize = "48".
Proof. vm_compute. reflexivity. Qed.

(** ** Slices *)

Lemma slice_ok {A} (s : list A) lo hi :
  lo ≤ hi → hi ≤ length s →
  Go.slice s lo hi = Returns (take (hi - lo) (drop lo s)).
Proof.
  intros Hlo Hhi. unfold Go.slice.
  rewrite bool_decide_eq_true_2; [reflexivity | split; assumption].
Qed.

Lemma slice_fault {A} (s : list A) lo hi :
  length s < hi →
  Go.slice s lo hi = Panics (RuntimeError SliceBoundsOutOfRange).
Proof.
  intros Hhi. unfold Go.slice.
  rewrite bool_decide_eq_false_2; [reflexivity | lia].
Qed.

Lemma slice_from_ok {A} (s : list A) lo :
  lo ≤ length s → Go.slice_from s lo = Returns (drop lo s).
Proof.
  intros Hlo. unfold Go.slice_from.
  rewrite slice_ok by lia.
  rewrite take_ge; [reflexivity | rewrite length_drop; lia].
Qed.

Lemma slice_from_fault {A} (s : list A) lo :
  length s < lo →
  Go.slice_from s lo = Panics (RuntimeError SliceBoundsOutOfRange).
Proof.
  intros Hlo. unfold Go.slice_from, Go.slice.
  rewrite bool_decide_eq_false_2; [reflexivity | lia].
Qed.

Lemma slice_first {A} (x : A) (s : list A) :
  Go.slice_to (x :: s) 1 = Returns [x].
Proof.
  unfold Go.slice_to. rewrite slice_ok by (cbn [length]; lia).
  cbn. rewrite take_0. reflexivity.
Qed.

Lemma copy_into_make (s : list byte) :
  Go.copy (Go.make (length s)) s = s.
Proof.
  unfold Go.copy, Go.make.
  rewrite length_replicate, Nat.min_id.
  rewrite take_ge by lia.
  rewrite drop_ge by (rewrite length_replicate; lia).
  apply app_nil_r.
Qed.

Lemma copy_shift {A} (x : A) (s : list A) :
  Go.copy (drop 1 (s ++ [x])) (s ++ [x]) = s.
Proof.
  unfold Go.copy.
  rewrite length_drop, length_app. simpl.
  replace ((length s + 1 - 1) `min` (length s + 1)) with (length s) by lia.
  rewrite take_app_length.
  rewrite drop_ge by (rewrite length_drop, length_app; simpl; lia).
  apply app_nil_r.
Qed.

(** ** The collector *)

Lemma prependNode_cons (newNode : Node) (nodes : list Node) :
  prependNode newNode nodes = newNode :: nodes.
Proof.
  unfold prependNode.
  rewrite copy_shift.
  destruct nodes as [|n0 nodes']; reflexivity.
Qed.

(** ** Identifiers *)

Lemma Encode_namespaced reg nh :
  registered reg → length nh = nmtHashSize →
  mh.Encode reg nh Sha256Namespace8Flagged = Returns (namespacedMultihash nh).
Proof.
  intros Hreg Hlen. unfold mh.Encode, mh.ValidCode.
  rewrite bool_decide_eq_true_2 by exact Hreg.
  rewrite Hlen. reflexivity.
Qed.

Lemma Encode_unregistered reg nh code :
  Codes reg !! code = None →
  mh.Encode reg nh code = Fails mh.ErrUnknownCode.
Proof.
  intros Hnone. unfold mh.Encode, mh.ValidCode.
  rewrite bool_decide_eq_false_2; [reflexivity|].
  rewrite Hnone. intros [? ?]; discriminate.
Qed.

Lemma Decode_namespaced reg nh :
  length nh = nmtHashSize →
  mh.Decode reg (namespacedMultihash nh) =
    Returns {| mh.Code := Sha256Namespace8Flagged;
               mh.Name := mh.CodeName reg Sha256Namespace8Flagged;
               mh.Length := nmtHashSize;
               mh.Digest := nh |}.
Proof.
  intros Hlen. unfold mh.Decode, namespacedMultihash.
  rewrite bool_decide_eq_false_2 by (rewrite length_app; simpl; lia).
  change (mh.uvarint ([x81; xee; x01; x30] ++ nh))
    with (@Returns (N * list byte) (Sha256Namespace8Flagged, x30 :: nh)).
  cbn [mbind outcome_bind].
  change (mh.uvarint (x30 :: nh)) with (@Returns (N * list byte) (48%N, nh)).
  cbn [mbind outcome_bind].
  change (0x7fffffff <? 48)%N with false. cbn match.
  rewrite bool_decide_eq_false_2 by (rewrite Hlen; intros H; apply H; reflexivity).
  reflexivity.
Qed.

Lemma CidFromNamespacedSha256_sized reg nh :
  registered reg → length nh = nmtHashSize →
  CidFromNamespacedSha256 reg nh =
    Returns (NewCidV1 Nmt (namespacedMultihash nh)).
Proof.
  intros Hreg Hlen. unfold CidFromNamespacedSha256.
  rewrite bool_decide_eq_false_2 by (intros H; apply H; exact Hlen).
  rewrite Encode_namespaced by assumption. reflexivity.
Qed.

Lemma CidFromNamespacedSha256_missized reg nh :
  length nh ≠ nmtHashSize →
  CidFromNamespacedSha256 reg nh =
    Fails ("invalid namespaced hash length, got: " +:+ pretty (length nh)
             +:+ ", want: 48").
Proof.
  intros Hlen. unfold CidFromNamespacedSha256.
  rewrite bool_decide_eq_true_2 by exact Hlen. reflexivity.
Qed.

Lemma CidFromNamespacedSha256_no_panic reg nh v :
  CidFromNamespacedSha256 reg nh ≠ Panics v.
Proof.
  unfold CidFromNamespacedSha256, mh.Encode.
  case_bool_decide; [discriminate|].
  destruct (negb _); discriminate.
Qed.

Lemma mustCidFromNamespacedSha256_sized reg nh :
  registered reg → length nh = nmtHashSize →
  mustCidFromNamespacedSha256 reg nh =
    Returns (NewCidV1 Nmt (namespacedMultihash nh)).
Proof.
  intros Hreg Hlen. unfold mustCidFromNamespacedSha256.
  rewrite CidFromNamespacedSha256_sized by assumption. reflexivity.
Qed.

Lemma visitAll_mapM reg (es : list emission) (n : nmtNodeCollector) :
  visitAll reg n es =
    (ns ← mapM (λ e : emission, visitNode reg e.1 e.2) es;
     Returns {| nodes := reverse ns ++ nodes n |}).
Proof.
  revert n. induction es as [|[hash children] es IH]; intros n.
  - destruct n; reflexivity.
  - cbn [visitAll mapM fst snd]. unfold visit.
    destruct (visitNode reg hash children) as [nd|err|v]; cbn; [|done..].
    rewrite IH. cbn [nodes].
    destruct (mapM _ es) as [ns|err|v]; cbn -[reverse]; [|done..].
    rewrite prependNode_cons, reverse_cons, <- app_assoc. reflexivity.
Qed.

Lemma mapM_outcome_app {A B} (f : A → outcome B) (xs ys : list A) :
  mapM f (xs ++ ys) =
    (a ← mapM f xs; b ← mapM f ys; Returns (a ++ b)).
Proof.
  induction xs as [|x xs IH]; cbn.
  - destruct (mapM f ys); reflexivity.
  - destruct (f x) as [y|err|v]; cbn; [|done..].
    rewrite IH.
    destruct (mapM f xs) as [a|err|v]; cbn; [|done..].
    destruct (mapM f ys) as [b|err|v]; reflexivity.
Qed.

Lemma visitNode_leaf reg hash data :
  registered reg → length hash = nmtHashSize →
  visitNode reg hash [data] =
    Returns (leafNode {| nmtLeafNode.cid :=
                           NewCidV1 Nmt (namespacedMultihash hash);
                         nmtLeafNode.Data := data |}).
Proof.
  intros Hreg Hlen. unfold visitNode.
  rewrite mustCidFromNamespacedSha256_sized by assumption. reflexivity.
Qed.

Lemma visitNode_inner reg hash left right :
  registered reg → length hash = nmtHashSize →
  visitNode reg hash [left; right] =
    Returns (innerNode {| nmtNode.cid :=
                            NewCidV1 Nmt (namespacedMultihash hash);
                          nmtNode.l := left; nmtNode.r := right |}).
Proof.
  intros Hreg Hlen. unfold visitNode.
  rewrite mustCidFromNamespacedSha256_sized by assumption. reflexivity.
Qed.

(** Visiting a tree whose hashes have the namespaced size never panics,
    and the node visited last carries the identifier of the root. *)
Lemma postOrder_visited reg (t : nmtTree) :
  registered reg → hashesSized t →
  ∃ ns nd,
    mapM (λ e : emission, visitNode reg e.1 e.2) (postOrder t)
      = Returns (ns ++ [nd]) ∧
    Node_Cid nd = Returns (NewCidV1 Nmt (namespacedMultihash (rootHash t))).
Proof.
  intros Hreg. induction t as [h d|h lt IHl rt IHr]; intros Hsz.
  - destruct Hsz as [Hlen _]. cbn in Hlen.
    exists [], (leafNode {| nmtLeafNode.cid :=
                              NewCidV1 Nmt (namespacedMultihash h);
                            nmtLeafNode.Data := d |}).
    split; [|reflexivity].
    cbn [postOrder mapM fst snd].
    rewrite visitNode_leaf by assumption. reflexivity.
  - destruct Hsz as [Hlen [Hl Hr]]. cbn in Hlen.
    destruct (IHl Hl) as (nsl & ndl & Hml & _).
    destruct (IHr Hr) as (nsr & ndr & Hmr & _).
    exists ((nsl ++ [ndl]) ++ (nsr ++ [ndr])),
      (innerNode {| nmtNode.cid := NewCidV1 Nmt (namespacedMultihash h);
                    nmtNode.l := rootHash lt; nmtNode.r := rootHash rt |}).
    split; [|reflexivity].
    cbn [postOrder]. rewrite !mapM_outcome_app, Hml, Hmr.
    cbn [mapM fst snd].
    rewrite visitNode_inner by assumption.
    cbn. rewrite <- !app_assoc. reflexivity.
Qed.

(** [C3] The collector prepends, so it returns what was emitted in reverse
    order, and for a tree visited in post-order its first node is the root.
    - [prependNode n ns] is [n] followed by [ns] unchanged;
    - for every sequence of callbacks, [collect] runs the callbacks in
      order and returns their nodes reversed (a callback that panics ends
      the run with that panic);
    - when the NMT emits a non-empty tree in post-order, the registry is
      initialised and every hash has the namespaced size, [collect] returns
      a list whose first node has the identifier made from the root hash. *)
Theorem collector_root_first :
  (∀ (n : Node) (ns : list Node), prependNode n ns = n :: ns) ∧
  (∀ reg (es : list emission),
     collect reg es =
       (ns ← mapM (λ e : emission, visitNode reg e.1 e.2) es;
        Returns (reverse ns))) ∧
  (∀ reg (t : nmtTree), registered reg → hashesSized t →
     ∃ first rest rootCid,
       collect reg (postOrder t) = Returns (first :: rest) ∧
       CidFromNamespacedSha256 reg (rootHash t) = Returns rootCid ∧
       Node_Cid first = Returns rootCid).
Proof.
  assert (Hcollect : ∀ reg (es : list emission),
     collect reg es =
       (ns ← mapM (λ e : emission, visitNode reg e.1 e.2) es;
        Returns (reverse ns))).
  { intros reg es. unfold collect. rewrite visitAll_mapM.
    destruct (mapM _ es) as [ns|err|v]; cbn; [|done..].
    unfold ipldNodes. cbn. rewrite app_nil_r. reflexivity. }
  split; [exact prependNode_cons|]. split; [exact Hcollect|].
  intros reg t Hreg Hsz.
  destruct (postOrder_visited reg t Hreg Hsz) as (ns & nd & Hm & Hcid).
  exists nd, (reverse ns), (NewCidV1 Nmt (namespacedMultihash (rootHash t))).
  split; [|split].
  - rewrite Hcollect, Hm. cbn -[reverse]. rewrite reverse_snoc. reflexivity.
  - apply CidFromNamespacedSha256_sized; [exact Hreg|]. destruct t; apply Hsz.
  - exact Hcid.
Qed.

(** ** The parser *)

Lemma NmtNodeParser_empty (c : Cid) :
  NmtNodeParser {| block_RawData := []; block_Cid := c |} =
    Returns (leafNode {| nmtLeafNode.cid := Undef; nmtLeafNode.Data := [] |}).
Proof. reflexivity. Qed.

Lemma NmtNodeParser_leaf (c : Cid) (payload : list byte) :
  NmtNodeParser {| block_RawData := LeafPrefix :: payload; block_Cid := c |} =
    Returns (leafNode {| nmtLeafNode.cid := c;
                         nmtLeafNode.Data := payload |}).
Proof.
  unfold NmtNodeParser. cbn [block_RawData block_Cid].
  rewrite bool_decide_eq_false_2 by discriminate.
  unfold prefixOffset. rewrite slice_first. cbn [mbind outcome_bind].
  unfold Go.bytes_Equal. rewrite bool_decide_eq_true_2 by reflexivity.
  rewrite slice_from_ok by (cbn [length]; lia). reflexivity.
Qed.

Lemma NmtNodeParser_inner (c : Cid) (rest : list byte) :
  nmtHashSize ≤ length rest →
  NmtNodeParser {| block_RawData := NodePrefix :: rest; block_Cid := c |} =
    Returns (innerNode {| nmtNode.cid := c;
                          nmtNode.l := take nmtHashSize rest;
                          nmtNode.r := drop nmtHashSize rest |}).
Proof.
  intros Hlen. unfold NmtNodeParser. cbn [block_RawData block_Cid].
  rewrite bool_decide_eq_false_2 by discriminate.
  unfold prefixOffset. rewrite slice_first. cbn [mbind outcome_bind].
  unfold Go.bytes_Equal. rewrite bool_decide_eq_false_2 by discriminate.
  rewrite bool_decide_eq_true_2 by reflexivity.
  rewrite slice_ok by (cbn [length]; lia).
  rewrite slice_from_ok by (cbn [length]; lia).
  cbn [mbind outcome_bind].
  replace (1 + nmtHashSize - 1) with nmtHashSize by lia.
  reflexivity.
Qed.

Lemma NmtNodeParser_inner_short (c : Cid) (rest : list byte) :
  length rest < nmtHashSize →
  NmtNodeParser {| block_RawData := NodePrefix :: rest; block_Cid := c |} =
    Panics (RuntimeError SliceBoundsOutOfRange).
Proof.
  intros Hlen. unfold NmtNodeParser. cbn [block_RawData block_Cid].
  rewrite bool_decide_eq_false_2 by discriminate.
  unfold prefixOffset. rewrite slice_first. cbn [mbind outcome_bind].
  unfold Go.bytes_Equal. rewrite bool_decide_eq_false_2 by discriminate.
  rewrite bool_decide_eq_true_2 by reflexivity.
  rewrite slice_fault by (cbn [length]; lia).
  reflexivity.
Qed.

Lemma NmtNodeParser_other (c : Cid) (b : byte) (rest : list byte) :
  b ≠ LeafPrefix → b ≠ NodePrefix →
  NmtNodeParser {| block_RawData := b :: rest; block_Cid := c |} =
    Fails (domainSeparatorError [LeafPrefix] [NodePrefix] [b]).
Proof.
  intros Hleaf Hinner. unfold NmtNodeParser. cbn [block_RawData block_Cid].
  rewrite bool_decide_eq_false_2 by discriminate.
  unfold prefixOffset. rewrite slice_first. cbn [mbind outcome_bind].
  unfold Go.bytes_Equal.
  rewrite !bool_decide_eq_false_2 by congruence.
  reflexivity.
Qed.

Lemma domainSeparatorError_names (b : byte) :
  let msg := domainSeparatorError [LeafPrefix] [NodePrefix] [b] in
  Go.Contains msg (Go.fmt_x [LeafPrefix]) = true ∧
  Go.Contains msg (Go.fmt_x [NodePrefix]) = true ∧
  Go.Contains msg (Go.fmt_x [b]) = true.
Proof. destruct b; vm_compute; repeat split. Qed.

Lemma pluginRegistry_registered (hashFunc : HashFunc) :
  registered (pluginRegistry hashFunc).
Proof. exists "sha2-256-namespace8-flagged". reflexivity. Defined.

(** [C1], as the code has it.  A block that starts with the inner prefix is
    never answered with an error, whatever its length: the parser has no
    framing check.  From 49 bytes on it returns an inner node whose left
    hash is bytes 1 to 48 and whose right hash is every byte after them. *)
Theorem NmtNodeParser_inner_unframed (block : Block) :
  head (block_RawData block) = Some NodePrefix →
  (∀ msg, NmtNodeParser block ≠ Fails msg) ∧
  (1 + nmtHashSize ≤ length (block_RawData block) →
   NmtNodeParser block =
     Returns (innerNode
       {| nmtNode.cid := block_Cid block;
          nmtNode.l := take nmtHashSize (drop 1 (block_RawData block));
          nmtNode.r := drop (1 + nmtHashSize) (block_RawData block) |})).
Proof.
  destruct block as [data c]. cbn [block_RawData block_Cid].
  destruct data as [|b rest]; [discriminate|].
  intros [= ->]. split.
  - intros msg.
    destruct (decide (nmtHashSize ≤ length rest)) as [Hlen|Hlen].
    + rewrite NmtNodeParser_inner by exact Hlen. discriminate.
    + rewrite NmtNodeParser_inner_short by lia. discriminate.
  - cbn [length]. intros Hlen.
    rewrite NmtNodeParser_inner by lia. reflexivity.
Qed.

Lemma NmtNodeParser_inner_unframed_witness :
  (∀ msg, NmtNodeParser sizedInnerBlock ≠ Fails msg) ∧
  NmtNodeParser sizedInnerBlock =
    Returns (innerNode {| nmtNode.cid := block_Cid sizedInnerBlock;
                          nmtNode.l := zeroHash; nmtNode.r := zeroHash |}).
Proof.
  destruct (NmtNodeParser_inner_unframed sizedInnerBlock eq_refl)
    as [Hnofail Hnode].
  split; [exact Hnofail|].
  rewrite Hnode; [reflexivity | vm_compute; lia].
Defined.

(** A 98-byte block with the inner prefix is parsed into a node, with a
    right hash of 49 bytes; no error is returned. *)
Lemma NmtNodeParser_oversized_inner_accepted :
  head (block_RawData oversizedInnerBlock) = Some NodePrefix ∧
  length (block_RawData oversizedInnerBlock) = 98 ∧
  length (block_RawData oversizedInnerBlock) ≠ 1 + 2 * nmtHashSize ∧
  NmtNodeParser oversizedInnerBlock =
    Returns (innerNode {| nmtNode.cid := Undef;
                          nmtNode.l := replicate 48 x00;
                          nmtNode.r := replicate 49 x00 |}).
Proof. repeat split; vm_compute; congruence. Qed.

(** [C2], as the code has it.  The parser's case analysis on the raw bytes:
    - no bytes: a leaf with no data and the undefined identifier;
    - leaf prefix first: a leaf with the bytes after the prefix and the
      identifier of the block;
    - inner prefix first, on a block of at least 49 bytes: an inner node
      with the identifier of the block;
    - any other first byte: an error whose message holds the hex of both
      prefixes and of the byte received; for the one-byte block [0x42] the
      message holds [00], [01] and [42]. *)
Theorem NmtNodeParser_case_analysis (c : Cid) :
  NmtNodeParser {| block_RawData := []; block_Cid := c |} =
    Returns (leafNode {| nmtLeafNode.cid := Undef;
                         nmtLeafNode.Data := [] |}) ∧
  (∀ payload,
     NmtNodeParser {| block_RawData := LeafPrefix :: payload;
                      block_Cid := c |} =
       Returns (leafNode {| nmtLeafNode.cid := c;
                            nmtLeafNode.Data := payload |})) ∧
  (∀ rest, nmtHashSize ≤ length rest →
     ∃ n, NmtNodeParser {| block_RawData := NodePrefix :: rest;
                           block_Cid := c |} = Returns (innerNode n) ∧
          nmtNode.cid n = c ∧
          nmtNode.l n = take nmtHashSize rest ∧
          nmtNode.r n = drop nmtHashSize rest) ∧
  (∀ b rest, b ≠ LeafPrefix → b ≠ NodePrefix →
     ∃ msg, NmtNodeParser {| block_RawData := b :: rest;
                             block_Cid := c |} = Fails msg ∧
            Go.Contains msg (Go.fmt_x [LeafPrefix]) = true ∧
            Go.Contains msg (Go.fmt_x [NodePrefix]) = true ∧
            Go.Contains msg (Go.fmt_x [b]) = true) ∧
  (∃ msg, NmtNodeParser {| block_RawData := [x42]; block_Cid := c |}
            = Fails msg ∧
          msg = "expected first byte of block to be either the leaf or inner node prefix: (00, 01), got: 42)" ∧
          Go.Contains msg "00" = true ∧
          Go.Contains msg "01" = true ∧
          Go.Contains msg "42" = true).
Proof.
  split; [apply NmtNodeParser_empty|].
  split; [apply NmtNodeParser_leaf|].
  split; [|split].
  - intros rest Hlen. eexists. split; [apply NmtNodeParser_inner, Hlen|].
    repeat split.
  - intros b rest Hleaf Hinner. eexists.
    split; [apply NmtNodeParser_other; assumption|].
    apply domainSeparatorError_names.
  - eexists. split; [apply NmtNodeParser_other; discriminate|].
    vm_compute. repeat split.
Qed.

Lemma NmtNodeParser_case_analysis_witness :
  (∃ n, NmtNodeParser sizedInnerBlock = Returns (innerNode n) ∧
        nmtNode.cid n = block_Cid sizedInnerBlock ∧
        nmtNode.l n = take nmtHashSize (zeroHash ++ zeroHash) ∧
        nmtNode.r n = drop nmtHashSize (zeroHash ++ zeroHash)) ∧
  (∃ msg, NmtNodeParser {| block_RawData := [xff; x00];
                           block_Cid := block_Cid sizedInnerBlock |}
            = Fails msg ∧
          Go.Contains msg (Go.fmt_x [LeafPrefix]) = true ∧
          Go.Contains msg (Go.fmt_x [NodePrefix]) = true ∧
          Go.Contains msg (Go.fmt_x [xff]) = true).
Proof.
  destruct (NmtNodeParser_case_analysis (block_Cid sizedInnerBlock))
    as (_ & _ & Hinner & Hother & _).
  split.
  - apply (Hinner (zeroHash ++ zeroHash)). vm_compute. lia.
  - apply (Hother xff [x00]); discriminate.
Defined.

(** An inner block cut after its prefix yields no node: the slicing of the
    left hash faults. *)
Lemma NmtNodeParser_truncated_inner_panics :
  head (block_RawData truncatedInnerBlock) = Some NodePrefix ∧
  NmtNodeParser truncatedInnerBlock =
    Panics (RuntimeError SliceBoundsOutOfRange) ∧
  (∀ nd, NmtNodeParser truncatedInnerBlock ≠ Returns nd).
Proof. repeat split. discriminate. Qed.

(** [C5] On a well-formed block, [RawData] after [NmtNodeParser] gives the
    bytes of the block back. *)
Theorem RawData_after_parse (block : Block) :
  wellFormedBlock (block_RawData block) →
  ∃ nd, NmtNodeParser block = Returns nd ∧
        Node_RawData nd = Returns (block_RawData block).
Proof.
  destruct block as [data c]. cbn [block_RawData].
  intros [payload|left right Hl Hr].
  - eexists. split; [apply NmtNodeParser_leaf|]. reflexivity.
  - eexists. split.
    + apply NmtNodeParser_inner. rewrite length_app. lia.
    + cbn [Node_RawData]. unfold nmtNode.RawData. cbn [nmtNode.l nmtNode.r].
      rewrite <- Hl at 1 2. rewrite take_app_length, drop_app_length.
      reflexivity.
Qed.

Lemma RawData_after_parse_witness :
  ∃ nd, NmtNodeParser sizedInnerBlock = Returns nd ∧
        Node_RawData nd = Returns (block_RawData sizedInnerBlock).
Proof.
  apply (RawData_after_parse sizedInnerBlock).
  apply wf_inner; reflexivity.
Defined.

(** ** Identifiers of namespaced hashes, continued *)

(** [C4] With the plugin's code registered, [CidFromNamespacedSha256]
    succeeds exactly on inputs of 48 bytes.  The identifier it returns has
    the codec [Nmt] and a multihash that decodes to the plugin's hash code
    and to the input as digest.  Any other length gives the invalid-length
    error, and no identifier. *)
Theorem CidFromNamespacedSha256_length reg (nh : list byte) :
  registered reg →
  ((∃ c, CidFromNamespacedSha256 reg nh = Returns c)
     ↔ length nh = nmtHashSize) ∧
  (length nh = nmtHashSize →
     ∃ c dm, CidFromNamespacedSha256 reg nh = Returns c ∧
             Cid_Type c = Nmt ∧
             mh.Decode reg (Cid_Hash c) = Returns dm ∧
             mh.Code dm = Sha256Namespace8Flagged ∧
             mh.Digest dm = nh) ∧
  (length nh ≠ nmtHashSize →
     CidFromNamespacedSha256 reg nh =
       Fails ("invalid namespaced hash length, got: " +:+ pretty (length nh)
                +:+ ", want: 48")).
Proof.
  intros Hreg. split; [|split].
  - split.
    + intros [c Hc].
      destruct (decide (length nh = nmtHashSize)) as [Hlen|Hlen]; [done|].
      rewrite CidFromNamespacedSha256_missized in Hc by exact Hlen.
      discriminate.
    + intros Hlen. eexists.
      apply CidFromNamespacedSha256_sized; assumption.
  - intros Hlen. do 2 eexists.
    split; [apply CidFromNamespacedSha256_sized; assumption|].
    split; [reflexivity|].
    split; [apply Decode_namespaced, Hlen|].
    split; reflexivity.
  - apply CidFromNamespacedSha256_missized.
Qed.

Lemma CidFromNamespacedSha256_length_witness :
  (∃ c dm, CidFromNamespacedSha256 (pluginRegistry zeroHashFunc) zeroHash
             = Returns c ∧
           Cid_Type c = Nmt ∧
           mh.Decode (pluginRegistry zeroHashFunc) (Cid_Hash c)
             = Returns dm ∧
           mh.Code dm = Sha256Namespace8Flagged ∧
           mh.Digest dm = zeroHash) ∧
  CidFromNamespacedSha256 (pluginRegistry zeroHashFunc) [x00; x01] =
    Fails ("invalid namespaced hash length, got: "
             +:+ pretty (length [x00; x01]) +:+ ", want: 48").
Proof.
  split.
  - apply (CidFromNamespacedSha256_length (pluginRegistry zeroHashFunc)
             zeroHash (pluginRegistry_registered zeroHashFunc)).
    reflexivity.
  - apply (CidFromNamespacedSha256_length (pluginRegistry zeroHashFunc)
             [x00; x01] (pluginRegistry_registered zeroHashFunc)).
    vm_compute. lia.
Defined.

(** ** Path resolution *)

Lemma Resolve_left reg (n : nmtNode.t) (rest : list string) :
  nmtNode.Resolve reg n ("0" :: rest) =
    (left ← CidFromNamespacedSha256 reg (nmtNode.l n);
     Returns ({| Link_Cid := left |}, rest)).
Proof.
  unfold nmtNode.Resolve. cbn [Go.index lookup list_lookup mbind outcome_bind].
  rewrite bool_decide_eq_true_2 by reflexivity.
  rewrite slice_from_ok by (cbn [length]; lia). reflexivity.
Qed.

Lemma Resolve_right reg (n : nmtNode.t) (rest : list string) :
  nmtNode.Resolve reg n ("1" :: rest) =
    (right ← CidFromNamespacedSha256 reg (nmtNode.r n);
     Returns ({| Link_Cid := right |}, rest)).
Proof.
  unfold nmtNode.Resolve. cbn [Go.index lookup list_lookup mbind outcome_bind].
  rewrite bool_decide_eq_false_2 by discriminate.
  rewrite bool_decide_eq_true_2 by reflexivity.
  rewrite slice_from_ok by (cbn [length]; lia). reflexivity.
Qed.

Lemma Resolve_other reg (n : nmtNode.t) (step : string) (rest : list string) :
  step ≠ "0" → step ≠ "1" →
  nmtNode.Resolve reg n (step :: rest) = Fails "invalid path for inner node".
Proof.
  intros H0 H1.
  unfold nmtNode.Resolve. cbn [Go.index lookup list_lookup mbind outcome_bind].
  rewrite !bool_decide_eq_false_2 by assumption. reflexivity.
Qed.

Lemma Resolve_empty reg (n : nmtNode.t) :
  nmtNode.Resolve reg n [] = Panics (RuntimeError IndexOutOfRange).
Proof. reflexivity. Qed.

(** [C6], as the code has it.  [Resolve] by the head of the path, with
    the plugin's code registered.  On an inner node, ["0"] gives a link to
    the identifier made from the stored left hash when that hash has 48
    bytes, and the invalid-length error when it has another length; ["1"]
    does the same with the stored right hash; a link comes with the rest
    of the path.  Any other head gives an error.  On a leaf every path
    gives an error. *)
Theorem Resolve_by_step reg :
  registered reg →
  (∀ (n : nmtNode.t) rest, length (nmtNode.l n) = nmtHashSize →
     ∃ left, CidFromNamespacedSha256 reg (nmtNode.l n) = Returns left ∧
       Node_Resolve reg (innerNode n) ("0" :: rest)
         = Returns ({| Link_Cid := left |}, rest)) ∧
  (∀ (n : nmtNode.t) rest, length (nmtNode.l n) ≠ nmtHashSize →
     Node_Resolve reg (innerNode n) ("0" :: rest)
       = Fails ("invalid namespaced hash length, got: "
                  +:+ pretty (length (nmtNode.l n)) +:+ ", want: 48")) ∧
  (∀ (n : nmtNode.t) rest, length (nmtNode.r n) = nmtHashSize →
     ∃ right, CidFromNamespacedSha256 reg (nmtNode.r n) = Returns right ∧
       Node_Resolve reg (innerNode n) ("1" :: rest)
         = Returns ({| Link_Cid := right |}, rest)) ∧
  (∀ (n : nmtNode.t) rest, length (nmtNode.r n) ≠ nmtHashSize →
     Node_Resolve reg (innerNode n) ("1" :: rest)
       = Fails ("invalid namespaced hash length, got: "
                  +:+ pretty (length (nmtNode.r n)) +:+ ", want: 48")) ∧
  (∀ (n : nmtNode.t) step rest, step ≠ "0" → step ≠ "1" →
     Node_Resolve reg (innerNode n) (step :: rest)
       = Fails "invalid path for inner node") ∧
  (∀ (lf : nmtLeafNode.t) path,
     Node_Resolve reg (leafNode lf) path
       = Fails "invalid path for leaf node").
Proof.
  intros Hreg. repeat split.
  - intros n rest Hlen. eexists. cbn [Node_Resolve].
    rewrite Resolve_left.
    rewrite CidFromNamespacedSha256_sized by assumption.
    split; reflexivity.
  - intros n rest Hlen. cbn [Node_Resolve].
    rewrite Resolve_left.
    rewrite CidFromNamespacedSha256_missized by exact Hlen. reflexivity.
  - intros n rest Hlen. eexists. cbn [Node_Resolve].
    rewrite Resolve_right.
    rewrite CidFromNamespacedSha256_sized by assumption.
    split; reflexivity.
  - intros n rest Hlen. cbn [Node_Resolve].
    rewrite Resolve_right.
    rewrite CidFromNamespacedSha256_missized by exact Hlen. reflexivity.
  - intros n step rest H0 H1. apply Resolve_other; assumption.
Qed.

Lemma Resolve_by_step_witness :
  let reg := pluginRegistry zeroHashFunc in
  let n := {| nmtNode.cid := Undef;
              nmtNode.l := zeroHash; nmtNode.r := zeroHash |} in
  let m := {| nmtNode.cid := Undef;
              nmtNode.l := [x01]; nmtNode.r := [x02; x03] |} in
  (∃ left, CidFromNamespacedSha256 reg zeroHash = Returns left ∧
     Node_Resolve reg (innerNode n) ["0"; "1"]
       = Returns ({| Link_Cid := left |}, ["1"])) ∧
  Node_Resolve reg (innerNode m) ["0"; "1"]
    = Fails ("invalid namespaced hash length, got: "
               +:+ pretty (length [x01]) +:+ ", want: 48") ∧
  (∃ right, CidFromNamespacedSha256 reg zeroHash = Returns right ∧
     Node_Resolve reg (innerNode n) ["1"; "1"]
       = Returns ({| Link_Cid := right |}, ["1"])) ∧
  Node_Resolve reg (innerNode m) ["1"; "1"]
    = Fails ("invalid namespaced hash length, got: "
               +:+ pretty (length [x02; x03]) +:+ ", want: 48") ∧
  Node_Resolve reg (innerNode n) ["2"] = Fails "invalid path for inner node".
Proof.
  intros reg n m.
  destruct (Resolve_by_step reg (pluginRegistry_registered zeroHashFunc))
    as (Hleft & Hleft' & Hright & Hright' & Hother & _).
  split; [|split; [|split; [|split]]].
  - apply (Hleft n ["1"]). reflexivity.
  - apply (Hleft' m ["1"]). vm_compute. lia.
  - apply (Hright n ["1"]). reflexivity.
  - apply (Hright' m ["1"]). vm_compute. lia.
  - apply (Hother n "2" []); discriminate.
Defined.

(** The node the parser returns for the 98-byte inner block has a right
    hash of 49 bytes; on it the step ["1"] gives the invalid-length error,
    not a link, with the plugin's code registered. *)
Lemma Resolve_right_of_oversized_block_fails :
  let n := {| nmtNode.cid := Undef;
              nmtNode.l := replicate 48 x00;
              nmtNode.r := replicate 49 x00 |} in
  NmtNodeParser oversizedInnerBlock = Returns (innerNode n) ∧
  Node_Resolve (pluginRegistry zeroHashFunc) (innerNode n) ["1"]
    = Fails "invalid namespaced hash length, got: 49, want: 48" ∧
  (∀ lnk rest,
     Node_Resolve (pluginRegistry zeroHashFunc) (innerNode n) ["1"]
       ≠ Returns (lnk, rest)).
Proof.
  intros n. split; [reflexivity|].
  assert (Hfail :
    Node_Resolve (pluginRegistry zeroHashFunc) (innerNode n) ["1"]
      = Fails "invalid namespaced hash length, got: 49, want: 48")
    by (vm_compute; reflexivity).
  split; [exact Hfail|].
  intros lnk rest. rewrite Hfail. discriminate.
Qed.

(** [C9] [Resolve] on an inner node reads [path[0]] unguarded: on the empty
    path it faults, returning neither a link nor the invalid-path error;
    on a non-empty path it returns a link with the rest of the path, or an
    error. *)
Theorem Resolve_needs_step reg (n : nmtNode.t) :
  nmtNode.Resolve reg n [] = Panics (RuntimeError IndexOutOfRange) ∧
  (∀ path, path ≠ [] →
     (∃ lnk rest, nmtNode.Resolve reg n path = Returns (lnk, rest)) ∨
     (∃ msg, nmtNode.Resolve reg n path = Fails msg)).
Proof.
  split; [reflexivity|].
  intros [|step rest] Hpath; [done|].
  destruct (decide (step = "0")) as [->|H0];
    [|destruct (decide (step = "1")) as [->|H1]].
  - rewrite Resolve_left.
    destruct (CidFromNamespacedSha256 reg (nmtNode.l n)) as [c|msg|v] eqn:Hc.
    + left. do 2 eexists. reflexivity.
    + right. eexists. reflexivity.
    + exfalso. exact (CidFromNamespacedSha256_no_panic _ _ _ Hc).
  - rewrite Resolve_right.
    destruct (CidFromNamespacedSha256 reg (nmtNode.r n)) as [c|msg|v] eqn:Hc.
    + left. do 2 eexists. reflexivity.
    + right. eexists. reflexivity.
    + exfalso. exact (CidFromNamespacedSha256_no_panic _ _ _ Hc).
  - right. eexists. apply Resolve_other; assumption.
Qed.

Lemma Resolve_needs_step_witness :
  let n := {| nmtNode.cid := Undef;
              nmtNode.l := zeroHash; nmtNode.r := [] |} in
  ((∃ lnk rest, nmtNode.Resolve emptyRegistry n ["1"] = Returns (lnk, rest)) ∨
   (∃ msg, nmtNode.Resolve emptyRegistry n ["1"] = Fails msg)).
Proof.
  intros n.
  apply (proj2 (Resolve_needs_step emptyRegistry n) ["1"]).
  discriminate.
Defined.

(** ** Copy *)

Lemma nmtNode_Copy_id (n : nmtNode.t) : nmtNode.Copy n = n.
Proof.
  destruct n as [c l r]. unfold nmtNode.Copy. cbn [nmtNode.cid nmtNode.l nmtNode.r].
  rewrite !copy_into_make. reflexivity.
Qed.

(** [C7] [Copy] on the two variants.  On an inner node it returns a node
    with the same identifier and the same raw bytes.  On a leaf it panics
    with [implement me], whatever the leaf, so no copy is returned. *)
Theorem Copy_inner_only :
  (∀ n : nmtNode.t,
     ∃ nd, Node_Copy (innerNode n) = Returns nd ∧
           Node_Cid nd = Node_Cid (innerNode n) ∧
           Node_RawData nd = Node_RawData (innerNode n)) ∧
  (∀ lf : nmtLeafNode.t,
     Node_Copy (leafNode lf) = Panics (PanicString "implement me")) ∧
  Node_Copy (leafNode {| nmtLeafNode.cid := Undef;
                         nmtLeafNode.Data := [x01; x02] |})
    = Panics (PanicString "implement me").
Proof.
  split; [|split; [|reflexivity]].
  - intros n. eexists. split; [reflexivity|].
    rewrite nmtNode_Copy_id. split; reflexivity.
  - intros lf. reflexivity.
Qed.

(** ** Registration *)

Lemma mustRegister_present codec name defaultLength hashFunc reg :
  is_Some (Codes reg !! codec) →
  mustRegisterNamespacedCodec codec name defaultLength hashFunc reg
    = Returns reg.
Proof.
  intros Hsome. unfold mustRegisterNamespacedCodec.
  rewrite bool_decide_eq_true_2 by exact Hsome. reflexivity.
Qed.

Lemma mustRegister_absent codec name defaultLength hashFunc reg :
  Codes reg !! codec = None → funcTable reg !! codec = None →
  mustRegisterNamespacedCodec codec name defaultLength hashFunc reg
    = Returns (Registry (<[codec := name]> (Codes reg))
                        (<[name := codec]> (Names reg))
                        (<[codec := defaultLength]> (DefaultLengths reg))
                        (<[codec := hashFunc]> (funcTable reg))).
Proof.
  intros Hcode Hfunc. unfold mustRegisterNamespacedCodec.
  rewrite bool_decide_eq_false_2 by (rewrite Hcode; intros [? ?]; discriminate).
  cbn [negb]. unfold mh.RegisterHashFunc, mh.ValidCode.
  cbn [Codes Names DefaultLengths funcTable].
  rewrite bool_decide_eq_true_2 by (rewrite lookup_insert_eq; eauto).
  cbn [negb].
  rewrite bool_decide_eq_false_2 by (rewrite Hfunc; intros [? ?]; discriminate).
  reflexivity.
Qed.

(** The abort for a code that is already present sits under the test that
    the code is absent: it is never reached. *)
Lemma mustRegister_never_reports_present codec name defaultLength hashFunc
    reg msg :
  mustRegisterNamespacedCodec codec name defaultLength hashFunc reg
    ≠ Panics (PanicString ("Codec 0x" +:+ msg)).
Proof.
  unfold mustRegisterNamespacedCodec.
  case_bool_decide as Hsome; cbn [negb]; [discriminate|].
  destruct (mh.RegisterHashFunc _ _ _) as [reg' [err|]]; discriminate.
Qed.

(** [C8] Registration under a code that is already taken.  With the code
    present under the plugin's own name the call changes nothing; with the
    code present under another name and length the call changes nothing
    either and returns normally: it does not abort.  With the code absent
    the call installs the name, the default length and the hash function. *)
Theorem mustRegister_taken_code_kept (hashFunc : HashFunc) :
  mustRegisterNamespacedCodec Sha256Namespace8Flagged
      "sha2-256-namespace8-flagged" (Z.of_nat nmtHashSize) hashFunc
      (pluginRegistry hashFunc)
    = Returns (pluginRegistry hashFunc) ∧
  Codes foreignRegistry !! Sha256Namespace8Flagged = Some "foreign-hash" ∧
  mustRegisterNamespacedCodec Sha256Namespace8Flagged
      "sha2-256-namespace8-flagged" (Z.of_nat nmtHashSize) hashFunc
      foreignRegistry
    = Returns foreignRegistry ∧
  mustRegisterNamespacedCodec Sha256Namespace8Flagged
      "sha2-256-namespace8-flagged" (Z.of_nat nmtHashSize) hashFunc
      emptyRegistry
    = Returns (pluginRegistry hashFunc).
Proof.
  split; [|split; [|split]].
  - apply mustRegister_present, pluginRegistry_registered.
  - reflexivity.
  - apply mustRegister_present. exists "foreign-hash". reflexivity.
  - rewrite mustRegister_absent by reflexivity. reflexivity.
Qed.

(** ** The registered hash function and [init] *)

Section HasherProperties.

Variable leafDigest : list byte → list byte.
Variable HashNode : list byte → list byte → callResult (list byte).

Lemma sumSha256Namespace8Flagged_leaf (rest : list byte) (_length : Z) :
  sumSha256Namespace8Flagged leafDigest HashNode (LeafPrefix :: rest) _length
    = called (nmt.Sha256Namespace8FlaggedLeaf leafDigest rest).
Proof.
  unfold sumSha256Namespace8Flagged.
  cbn [Go.index lookup list_lookup mbind outcome_bind].
  rewrite bool_decide_eq_true_2 by reflexivity.
  rewrite slice_from_ok by (cbn [length]; lia). reflexivity.
Qed.

Lemma sumSha256Namespace8Flagged_inner (d0 : byte) (rest : list byte)
    (_length : Z) :
  d0 ≠ LeafPrefix →
  sumSha256Namespace8Flagged leafDigest HashNode (d0 :: rest) _length
    = called (nmt.Sha256Namespace8FlaggedInner HashNode rest).
Proof.
  intros Hne. unfold sumSha256Namespace8Flagged.
  cbn [Go.index lookup list_lookup mbind outcome_bind].
  rewrite bool_decide_eq_false_2 by exact Hne.
  rewrite slice_from_ok by (cbn [length]; lia). reflexivity.
Qed.

Lemma called_never_fails {A} (r : callResult A) (msg : string) :
  called r ≠ Fails msg.
Proof. destruct r; discriminate. Qed.

Lemma Sha256Namespace8FlaggedLeaf_sized (rest : list byte) :
  namespaceSize ≤ length rest →
  nmt.Sha256Namespace8FlaggedLeaf leafDigest rest
    = Done (take namespaceSize rest ++ take namespaceSize rest
              ++ leafDigest rest).
Proof.
  intros Hlen. unfold nmt.Sha256Namespace8FlaggedLeaf.
  rewrite bool_decide_eq_true_2 by exact Hlen. reflexivity.
Qed.

Lemma Sha256Namespace8FlaggedLeaf_short (rest : list byte) :
  length rest < namespaceSize →
  nmt.Sha256Namespace8FlaggedLeaf leafDigest rest
    = Faulted (RuntimeError SliceBoundsOutOfRange).
Proof.
  intros Hlen. unfold nmt.Sha256Namespace8FlaggedLeaf.
  rewrite bool_decide_eq_false_2 by lia. reflexivity.
Qed.

Lemma Sha256Namespace8FlaggedInner_sized (rest : list byte) :
  nmtHashSize ≤ length rest →
  nmt.Sha256Namespace8FlaggedInner HashNode rest
    = HashNode (take nmtHashSize rest) (drop nmtHashSize rest).
Proof.
  intros Hlen. unfold nmt.Sha256Namespace8FlaggedInner.
  rewrite bool_decide_eq_true_2
    by (unfold nmtHashSize, namespaceSize, sha256_Size in *; lia).
  reflexivity.
Qed.

Lemma Sha256Namespace8FlaggedInner_short (rest : list byte) :
  length rest < nmtHashSize →
  nmt.Sha256Namespace8FlaggedInner HashNode rest
    = Faulted (RuntimeError SliceBoundsOutOfRange).
Proof.
  intros Hlen. unfold nmt.Sha256Namespace8FlaggedInner.
  rewrite bool_decide_eq_false_2
    by (unfold nmtHashSize, namespaceSize, sha256_Size in *; lia).
  reflexivity.
Qed.

(** [C10], as the code has it.  [sumSha256Namespace8Flagged] reads
    [data[0]] unguarded: on the empty input it faults.  On a non-empty
    input it never returns an error.  It calls the leaf routine of the NMT
    on [data[1:]] when [data[0]] is the leaf prefix and the inner routine
    on [data[1:]] otherwise; when the routine returns, it returns that
    hash, and when the routine panics, so does the call.  The leaf routine
    returns on 8 bytes or more and panics on fewer; the inner routine
    panics on fewer than 48 bytes and hands longer input to [HashNode]. *)
Theorem sumSha256Namespace8Flagged_dispatch (_length : Z) :
  sumSha256Namespace8Flagged leafDigest HashNode [] _length
    = Panics (RuntimeError IndexOutOfRange) ∧
  (∀ data, data ≠ [] →
     (∀ msg,
        sumSha256Namespace8Flagged leafDigest HashNode data _length
          ≠ Fails msg) ∧
     (head data = Some LeafPrefix →
        sumSha256Namespace8Flagged leafDigest HashNode data _length
          = called (nmt.Sha256Namespace8FlaggedLeaf leafDigest
                      (drop 1 data))) ∧
     (head data ≠ Some LeafPrefix →
        sumSha256Namespace8Flagged leafDigest HashNode data _length
          = called (nmt.Sha256Namespace8FlaggedInner HashNode
                      (drop 1 data)))) ∧
  (∀ rest, namespaceSize ≤ length rest →
     sumSha256Namespace8Flagged leafDigest HashNode
         (LeafPrefix :: rest) _length
       = Returns (take namespaceSize rest ++ take namespaceSize rest
                    ++ leafDigest rest)) ∧
  (∀ rest, length rest < namespaceSize →
     sumSha256Namespace8Flagged leafDigest HashNode
         (LeafPrefix :: rest) _length
       = Panics (RuntimeError SliceBoundsOutOfRange)) ∧
  (∀ d0 rest, d0 ≠ LeafPrefix → nmtHashSize ≤ length rest →
     sumSha256Namespace8Flagged leafDigest HashNode (d0 :: rest) _length
       = called (HashNode (take nmtHashSize rest)
                          (drop nmtHashSize rest))) ∧
  (∀ d0 rest, d0 ≠ LeafPrefix → length rest < nmtHashSize →
     sumSha256Namespace8Flagged leafDigest HashNode (d0 :: rest) _length
       = Panics (RuntimeError SliceBoundsOutOfRange)).
Proof.
  split; [reflexivity|]. split; [|repeat split].
  - intros [|d0 rest] Hdata; [done|].
    split; [|split].
    + intros msg. destruct (decide (d0 = LeafPrefix)) as [->|Hne].
      * rewrite sumSha256Namespace8Flagged_leaf. apply called_never_fails.
      * rewrite sumSha256Namespace8Flagged_inner by exact Hne.
        apply called_never_fails.
    + intros [= ->]. apply sumSha256Namespace8Flagged_leaf.
    + intros Hne. apply sumSha256Namespace8Flagged_inner.
      intros ->. apply Hne. reflexivity.
  - intros rest Hlen. rewrite sumSha256Namespace8Flagged_leaf.
    rewrite Sha256Namespace8FlaggedLeaf_sized by exact Hlen. reflexivity.
  - intros rest Hlen. rewrite sumSha256Namespace8Flagged_leaf.
    rewrite Sha256Namespace8FlaggedLeaf_short by exact Hlen. reflexivity.
  - intros d0 rest Hne Hlen.
    rewrite sumSha256Namespace8Flagged_inner by exact Hne.
    rewrite Sha256Namespace8FlaggedInner_sized by exact Hlen. reflexivity.
  - intros d0 rest Hne Hlen.
    rewrite sumSha256Namespace8Flagged_inner by exact Hne.
    rewrite Sha256Namespace8FlaggedInner_short by exact Hlen. reflexivity.
Qed.

(** [init] leaves the plugin's code in the table whenever it returns,
    and it returns on tables whose hash functions all have a code. *)
Lemma init_registered (reg reg' : registry) :
  init leafDigest HashNode reg = Returns reg' →
  registered reg'.
Proof.
  unfold init, mustRegisterNamespacedCodec, registered.
  case_bool_decide as Hsome; cbn [negb].
  - intros [= <-]. exact Hsome.
  - unfold mh.RegisterHashFunc, mh.ValidCode.
    cbn [Codes Names DefaultLengths funcTable].
    rewrite bool_decide_eq_true_2 by (rewrite lookup_insert_eq; eauto).
    cbn [negb]. case_bool_decide; [discriminate|].
    intros [= <-]. cbn [Codes]. rewrite lookup_insert_eq. eauto.
Qed.

Lemma init_returns (reg : registry) :
  (∀ code, is_Some (funcTable reg !! code) → is_Some (Codes reg !! code)) →
  ∃ reg', init leafDigest HashNode reg = Returns reg'.
Proof.
  intros Hinv. unfold init.
  destruct (Codes reg !! Sha256Namespace8Flagged) as [name|] eqn:Hcode.
  - eexists. apply mustRegister_present. rewrite Hcode. eauto.
  - eexists. apply mustRegister_absent; [exact Hcode|].
    destruct (funcTable reg !! Sha256Namespace8Flagged) eqn:Hf; [|done].
    destruct (Hinv Sha256Namespace8Flagged) as [? Habs]; [eauto|].
    rewrite Hcode in Habs. discriminate.
Qed.

End HasherProperties.

Lemma sumSha256Namespace8Flagged_dispatch_witness :
  let sum := sumSha256Namespace8Flagged zeroDigest firstChild in
  (∀ msg, sum [x00; x07] 0%Z ≠ Fails msg) ∧
  sum (LeafPrefix :: replicate 8 x07) 0%Z
    = called (nmt.Sha256Namespace8FlaggedLeaf zeroDigest
                (drop 1 (LeafPrefix :: replicate 8 x07))) ∧
  sum [x01; x07] 0%Z
    = called (nmt.Sha256Namespace8FlaggedInner firstChild
                (drop 1 [x01; x07])) ∧
  sum (LeafPrefix :: replicate 8 x07) 0%Z
    = Returns (replicate 8 x07 ++ replicate 8 x07 ++ replicate 32 x00) ∧
  sum [x00; x07] 0%Z = Panics (RuntimeError SliceBoundsOutOfRange) ∧
  sum (NodePrefix :: zeroHash ++ zeroHash) 0%Z = Returns zeroHash ∧
  sum [x01; x07] 0%Z = Panics (RuntimeError SliceBoundsOutOfRange).
Proof.
  intros sum.
  destruct (sumSha256Namespace8Flagged_dispatch zeroDigest firstChild 0)
    as (_ & Hdispatch & Hleaf & Hshort & Hinner & Hcut).
  destruct (Hdispatch [x00; x07]) as (Hnofail & _ & _); [discriminate|].
  destruct (Hdispatch (LeafPrefix :: replicate 8 x07)) as (_ & Hl & _);
    [discriminate|].
  destruct (Hdispatch [x01; x07]) as (_ & _ & Hi); [discriminate|].
  split; [exact Hnofail|].
  split; [apply Hl; reflexivity|].
  split; [apply Hi; discriminate|].
  split; [apply (Hleaf (replicate 8 x07)); vm_compute; lia|].
  split; [apply (Hshort [x07]); vm_compute; lia|].
  split; [apply (Hinner x01 (zeroHash ++ zeroHash));
            [discriminate | vm_compute; lia]|].
  apply (Hcut x01 [x07]); [discriminate | vm_compute; lia].
Defined.

(** The two-byte input [0x00 0x07] is not empty and starts with the leaf
    prefix, yet the call returns no hash: the leaf routine slices 8 bytes
    of namespace off the one byte it is given. *)
Lemma sumSha256Namespace8Flagged_short_leaf_panics :
  [x00; x07] ≠ [] ∧
  head [x00; x07] = Some LeafPrefix ∧
  sumSha256Namespace8Flagged zeroDigest firstChild [x00; x07] 0
    = Panics (RuntimeError SliceBoundsOutOfRange) ∧
  (∀ h, sumSha256Namespace8Flagged zeroDigest firstChild [x00; x07] 0
          ≠ Returns h).
Proof. repeat split; discriminate. Qed.

Lemma collector_root_first_witness :
  ∃ first rest rootCid,
    collect (pluginRegistry zeroHashFunc) (postOrder sampleTree)
      = Returns (first :: rest) ∧
    CidFromNamespacedSha256 (pluginRegistry zeroHashFunc)
      (rootHash sampleTree) = Returns rootCid ∧
    Node_Cid first = Returns rootCid.
Proof.
  apply (proj2 (proj2 collector_root_first)
           (pluginRegistry zeroHashFunc) sampleTree).
  - apply pluginRegistry_registered.
  - repeat split.
Defined.

(** * Further properties of the plugin *)

(** ** Identifiers and links *)

(** Two namespaced hashes with the same identifier are the same hash,
    whatever the tables the identifiers were made under. *)
Theorem CidFromNamespacedSha256_inj reg1 reg2 (h1 h2 : list byte) (c : Cid) :
  CidFromNamespacedSha256 reg1 h1 = Returns c →
  CidFromNamespacedSha256 reg2 h2 = Returns c →
  h1 = h2.
Proof.
  unfold CidFromNamespacedSha256, mh.Encode.
  case_bool_decide as Hlen1; [discriminate|].
  case_bool_decide as Hlen2; [discriminate|].
  destruct (negb _); [discriminate|].
  destruct (negb _); [discriminate|].
  intros [= <-] [= Heq].
  rewrite Hlen1, Hlen2 in Heq.
  apply app_inv_head in Heq. congruence.
Qed.

Lemma CidFromNamespacedSha256_inj_witness :
  CidFromNamespacedSha256 (pluginRegistry zeroHashFunc) zeroHash
    = Returns (NewCidV1 Nmt (namespacedMultihash zeroHash)) ∧
  CidFromNamespacedSha256 foreignRegistry (replicate 48 x00)
    = Returns (NewCidV1 Nmt (namespacedMultihash zeroHash)) ∧
  zeroHash = replicate 48 x00.
Proof.
  split; [reflexivity|]. split; [reflexivity|].
  apply (CidFromNamespacedSha256_inj
           (pluginRegistry zeroHashFunc) foreignRegistry
           zeroHash (replicate 48 x00)
           (NewCidV1 Nmt (namespacedMultihash zeroHash)));
    reflexivity.
Defined.

Lemma mustCid_returns reg h c :
  mustCidFromNamespacedSha256 reg h = Returns c →
  CidFromNamespacedSha256 reg h = Returns c.
Proof.
  unfold mustCidFromNamespacedSha256.
  destruct (CidFromNamespacedSha256 reg h); congruence.
Qed.

Lemma mustCid_of_returns reg h c :
  CidFromNamespacedSha256 reg h = Returns c →
  mustCidFromNamespacedSha256 reg h = Returns c.
Proof. unfold mustCidFromNamespacedSha256. intros ->. reflexivity. Qed.

Lemma mustCid_fails reg h err :
  CidFromNamespacedSha256 reg h = Fails err →
  mustCidFromNamespacedSha256 reg h =
    Panics (PanicString ("malformed hash: " +:+ err +:+ ", codec: "
                           +:+ mh.CodeName reg Sha256Namespace8Flagged)).
Proof. unfold mustCidFromNamespacedSha256. intros ->. reflexivity. Qed.

(** Whenever [Links] returns, it returns two links, and they are the ones
    [Resolve] gives for the steps ["0"] and ["1"]. *)
Theorem Links_agree_with_Resolve reg (n : nmtNode.t) (links : list Link) :
  nmtNode.Links reg n = Returns links →
  ∃ left right, links = [left; right] ∧
    ∀ rest, nmtNode.Resolve reg n ("0" :: rest) = Returns (left, rest) ∧
            nmtNode.Resolve reg n ("1" :: rest) = Returns (right, rest).
Proof.
  unfold nmtNode.Links.
  destruct (mustCidFromNamespacedSha256 reg (nmtNode.l n))
    as [cl|?|?] eqn:Hl; [|discriminate..].
  destruct (mustCidFromNamespacedSha256 reg (nmtNode.r n))
    as [cr|?|?] eqn:Hr; [|discriminate..].
  cbn [mbind outcome_bind]. intros [= <-]. do 2 eexists. split; [reflexivity|].
  intros rest. rewrite Resolve_left, Resolve_right.
  rewrite (mustCid_returns _ _ _ Hl), (mustCid_returns _ _ _ Hr).
  split; reflexivity.
Qed.

Lemma Links_agree_with_Resolve_witness :
  let reg := pluginRegistry zeroHashFunc in
  let n := {| nmtNode.cid := Undef;
              nmtNode.l := zeroHash; nmtNode.r := zeroHash |} in
  ∃ left right,
    [ {| Link_Cid := NewCidV1 Nmt (namespacedMultihash zeroHash) |};
      {| Link_Cid := NewCidV1 Nmt (namespacedMultihash zeroHash) |} ]
      = [left; right] ∧
    ∀ rest, nmtNode.Resolve reg n ("0" :: rest) = Returns (left, rest) ∧
            nmtNode.Resolve reg n ("1" :: rest) = Returns (right, rest).
Proof.
  intros reg n.
  apply (Links_agree_with_Resolve reg n). reflexivity.
Defined.

(** An inner block of at least 49 bytes that does not have the 97 bytes of
    the layout is parsed into a node on which [Links] panics and on which
    [Resolve] answers the step ["1"] with the invalid-length error. *)
Theorem Links_panics_after_unframed_block reg (block : Block) :
  head (block_RawData block) = Some NodePrefix →
  1 + nmtHashSize ≤ length (block_RawData block) →
  length (block_RawData block) ≠ 1 + 2 * nmtHashSize →
  ∃ n, NmtNodeParser block = Returns (innerNode n) ∧
       (∃ msg, nmtNode.Links reg n = Panics (PanicString msg)) ∧
       ∀ rest, nmtNode.Resolve reg n ("1" :: rest) =
         Fails ("invalid namespaced hash length, got: "
                  +:+ pretty (length (block_RawData block) - (1 + nmtHashSize))
                  +:+ ", want: 48").
Proof.
  destruct block as [data c]. cbn [block_RawData block_Cid].
  destruct data as [|b rest]; [discriminate|].
  intros [= ->] Hlong Hodd. cbn [length] in Hlong, Hodd.
  eexists. split; [apply NmtNodeParser_inner; lia|].
  assert (Hr : length (drop nmtHashSize rest) ≠ nmtHashSize)
    by (rewrite length_drop; unfold nmtHashSize, namespaceSize, sha256_Size in *; lia).
  split.
  - unfold nmtNode.Links. cbn [nmtNode.l nmtNode.r].
    destruct (CidFromNamespacedSha256 reg (take nmtHashSize rest))
      as [cl|err|v] eqn:Hl.
    + rewrite (mustCid_of_returns _ _ _ Hl).
      cbn [mbind outcome_bind].
      rewrite (mustCid_fails _ _ _
                 (CidFromNamespacedSha256_missized reg _ Hr)).
      eexists. reflexivity.
    + rewrite (mustCid_fails _ _ _ Hl). eexists. reflexivity.
    + exfalso. exact (CidFromNamespacedSha256_no_panic _ _ _ Hl).
  - intros rest'. rewrite Resolve_right. cbn [nmtNode.r].
    rewrite CidFromNamespacedSha256_missized by exact Hr.
    rewrite length_drop. reflexivity.
Qed.

Lemma Links_panics_after_unframed_block_witness :
  ∃ n, NmtNodeParser oversizedInnerBlock = Returns (innerNode n) ∧
       (∃ msg, nmtNode.Links emptyRegistry n = Panics (PanicString msg)) ∧
       ∀ rest, nmtNode.Resolve emptyRegistry n ("1" :: rest) =
         Fails ("invalid namespaced hash length, got: "
                  +:+ pretty (length (block_RawData oversizedInnerBlock)
                                - (1 + nmtHashSize))
                  +:+ ", want: 48").
Proof.
  apply (Links_panics_after_unframed_block emptyRegistry oversizedInnerBlock).
  - reflexivity.
  - vm_compute. lia.
  - vm_compute. lia.
Defined.

(** [Tree] at the only arguments it supports returns the two steps of an
    inner node, ["0"] then ["1"], and these are exactly the steps [Resolve]
    does not answer with the invalid-path error.  At any other arguments
    [Tree] panics. *)
Theorem Tree_lists_the_steps reg (n : nmtNode.t) :
  nmtNode_Tree n EmptyString (-1) = Returns ["0"; "1"] ∧
  (∀ step rest,
     step ∈ ["0"; "1"] ↔
     nmtNode.Resolve reg n (step :: rest)
       ≠ Fails "invalid path for inner node") ∧
  (∀ path depth, path ≠ EmptyString ∨ depth ≠ (-1)%Z →
     nmtNode_Tree n path depth
       = Panics (PanicString "proper tree not yet implemented")).
Proof.
  split; [reflexivity|]. split.
  - intros step rest. split.
    + intros Hin. apply elem_of_cons in Hin as [->|Hin];
        [|apply elem_of_cons in Hin as [->|Hin];
          [|by apply elem_of_nil in Hin]].
      * rewrite Resolve_left. unfold CidFromNamespacedSha256, mh.Encode.
        case_bool_decide; [cbn; discriminate|].
        destruct (negb _); cbn; discriminate.
      * rewrite Resolve_right. unfold CidFromNamespacedSha256, mh.Encode.
        case_bool_decide; [cbn; discriminate|].
        destruct (negb _); cbn; discriminate.
    + intros Hres.
      destruct (decide (step = "0")) as [->|H0]; [set_solver|].
      destruct (decide (step = "1")) as [->|H1]; [set_solver|].
      exfalso. apply Hres. apply Resolve_other; assumption.
  - intros path depth Hargs. unfold nmtNode_Tree.
    destruct Hargs as [Hpath|Hdepth].
    + rewrite (bool_decide_eq_true_2 _ Hpath). reflexivity.
    + rewrite (bool_decide_eq_true_2 (depth ≠ (-1)%Z) Hdepth).
      rewrite orb_true_r. reflexivity.
Qed.

Lemma Tree_lists_the_steps_witness :
  nmtNode_Tree {| nmtNode.cid := Undef; nmtNode.l := []; nmtNode.r := [] |}
      "0" 1
    = Panics (PanicString "proper tree not yet implemented").
Proof.
  apply (proj2 (proj2 (Tree_lists_the_steps emptyRegistry
                  {| nmtNode.cid := Undef; nmtNode.l := []; nmtNode.r := [] |}))).
  left. discriminate.
Defined.

(** ** Raw bytes, parsing and hashing *)

(** Parsing the raw bytes of a node under its identifier.  A leaf always
    comes back as it was.  An inner node comes back as it was exactly when
    its left hash has the namespaced size: the parser splits after 48
    bytes, wherever [RawData] joined the two hashes. *)
Theorem parse_after_RawData :
  (∀ lf : nmtLeafNode.t,
     NmtNodeParser {| block_RawData := nmtLeafNode.RawData lf;
                      block_Cid := nmtLeafNode.Cid lf |}
       = Returns (leafNode lf)) ∧
  (∀ n : nmtNode.t,
     NmtNodeParser {| block_RawData := nmtNode.RawData n;
                      block_Cid := nmtNode.Cid n |}
       = Returns (innerNode n)
     ↔ length (nmtNode.l n) = nmtHashSize).
Proof.
  split.
  - intros [c d]. apply NmtNodeParser_leaf.
  - intros [c l r]. unfold nmtNode.RawData, nmtNode.Cid.
    cbn [nmtNode.cid nmtNode.l nmtNode.r app].
    destruct (decide (nmtHashSize ≤ length (l ++ r))) as [Hlen|Hlen].
    + rewrite NmtNodeParser_inner by exact Hlen. split.
      * intros [= Hl Hr]. rewrite <- Hl at 1.
        rewrite length_take. lia.
      * intros Hl. rewrite <- Hl.
        rewrite take_app_length, drop_app_length. reflexivity.
    + rewrite NmtNodeParser_inner_short by lia. split; [discriminate|].
      intros Hl. rewrite length_app in Hlen. lia.
Qed.

Section HashingRawData.

Variable leafDigest : list byte → list byte.
Variable HashNode : list byte → list byte → callResult (list byte).

(** The registered hash function on the raw bytes of a node.  It never
    returns an error.  A leaf with 8 bytes of data or more gets its first
    8 bytes twice before the digest of the data; a leaf with fewer bytes
    makes the call panic.  An inner node whose left hash has the
    namespaced size gets the [HashNode] of its two hashes, returning or
    panicking as [HashNode] does; when the two hashes together are shorter
    than 48 bytes the call panics. *)
Theorem sumSha256Namespace8Flagged_of_RawData (_length : Z) :
  (∀ lf : nmtLeafNode.t, namespaceSize ≤ length (nmtLeafNode.Data lf) →
     sumSha256Namespace8Flagged leafDigest HashNode
         (nmtLeafNode.RawData lf) _length
       = Returns (take namespaceSize (nmtLeafNode.Data lf)
                    ++ take namespaceSize (nmtLeafNode.Data lf)
                    ++ leafDigest (nmtLeafNode.Data lf))) ∧
  (∀ lf : nmtLeafNode.t, length (nmtLeafNode.Data lf) < namespaceSize →
     sumSha256Namespace8Flagged leafDigest HashNode
         (nmtLeafNode.RawData lf) _length
       = Panics (RuntimeError SliceBoundsOutOfRange)) ∧
  (∀ n : nmtNode.t, length (nmtNode.l n) = nmtHashSize →
     sumSha256Namespace8Flagged leafDigest HashNode
         (nmtNode.RawData n) _length
       = called (HashNode (nmtNode.l n) (nmtNode.r n))) ∧
  (∀ n : nmtNode.t, length (nmtNode.l n ++ nmtNode.r n) < nmtHashSize →
     sumSha256Namespace8Flagged leafDigest HashNode
         (nmtNode.RawData n) _length
       = Panics (RuntimeError SliceBoundsOutOfRange)) ∧
  (∀ (nd : Node) (raw : list byte) (msg : string),
     Node_RawData nd = Returns raw →
     sumSha256Namespace8Flagged leafDigest HashNode raw _length
       ≠ Fails msg).
Proof.
  repeat split.
  - intros lf Hlen. unfold nmtLeafNode.RawData. cbn [app].
    rewrite sumSha256Namespace8Flagged_leaf.
    rewrite Sha256Namespace8FlaggedLeaf_sized by exact Hlen. reflexivity.
  - intros lf Hlen. unfold nmtLeafNode.RawData. cbn [app].
    rewrite sumSha256Namespace8Flagged_leaf.
    rewrite Sha256Namespace8FlaggedLeaf_short by exact Hlen. reflexivity.
  - intros n Hlen. unfold nmtNode.RawData. cbn [app].
    rewrite sumSha256Namespace8Flagged_inner by discriminate.
    rewrite Sha256Namespace8FlaggedInner_sized
      by (rewrite length_app; lia).
    rewrite <- Hlen, take_app_length, drop_app_length. reflexivity.
  - intros n Hlen. unfold nmtNode.RawData. cbn [app].
    rewrite sumSha256Namespace8Flagged_inner by discriminate.
    rewrite Sha256Namespace8FlaggedInner_short by exact Hlen. reflexivity.
  - intros [|n|lf] raw msg; cbn [Node_RawData]; [discriminate| |];
      intros [= <-].
    + unfold nmtNode.RawData. cbn [app].
      rewrite sumSha256Namespace8Flagged_inner by discriminate.
      apply called_never_fails.
    + unfold nmtLeafNode.RawData. cbn [app].
      rewrite sumSha256Namespace8Flagged_leaf. apply called_never_fails.
Qed.

(** After [init] has returned, identifiers are made for exactly the hashes
    of 48 bytes, whatever the tables held before. *)
Theorem init_enables_identifiers (reg reg' : registry) (h : list byte) :
  init leafDigest HashNode reg = Returns reg' →
  (∃ c, CidFromNamespacedSha256 reg' h = Returns c)
    ↔ length h = nmtHashSize.
Proof.
  intros Hinit.
  apply init_registered in Hinit.
  split.
  - intros [c Hc].
    destruct (decide (length h = nmtHashSize)) as [Hlen|Hlen]; [done|].
    rewrite CidFromNamespacedSha256_missized in Hc by exact Hlen.
    discriminate.
  - intros Hlen. eexists.
    apply CidFromNamespacedSha256_sized; assumption.
Qed.

End HashingRawData.

Lemma sumSha256Namespace8Flagged_of_RawData_witness :
  let sum := sumSha256Namespace8Flagged zeroDigest firstChild in
  sum (nmtLeafNode.RawData {| nmtLeafNode.cid := Undef;
                              nmtLeafNode.Data := replicate 8 x07 |}) 0%Z
    = Returns (replicate 8 x07 ++ replicate 8 x07 ++ replicate 32 x00) ∧
  sum (nmtLeafNode.RawData {| nmtLeafNode.cid := Undef;
                              nmtLeafNode.Data := [] |}) 0%Z
    = Panics (RuntimeError SliceBoundsOutOfRange) ∧
  sum (nmtNode.RawData {| nmtNode.cid := Undef; nmtNode.l := zeroHash;
                          nmtNode.r := [x01] |}) 0%Z
    = called (firstChild zeroHash [x01]) ∧
  sum (nmtNode.RawData {| nmtNode.cid := Undef; nmtNode.l := [x01];
                          nmtNode.r := [x02] |}) 0%Z
    = Panics (RuntimeError SliceBoundsOutOfRange) ∧
  (∀ msg, sum [x00] 0%Z ≠ Fails msg).
Proof.
  intros sum.
  destruct (sumSha256Namespace8Flagged_of_RawData zeroDigest firstChild 0)
    as (Hleaf & Hshort & Hinner & Hcut & Hnofail).
  split; [apply (Hleaf {| nmtLeafNode.cid := Undef;
                          nmtLeafNode.Data := replicate 8 x07 |});
          vm_compute; lia|].
  split; [apply (Hshort {| nmtLeafNode.cid := Undef;
                           nmtLeafNode.Data := [] |});
          vm_compute; lia|].
  split; [apply (Hinner {| nmtNode.cid := Undef; nmtNode.l := zeroHash;
                           nmtNode.r := [x01] |}); reflexivity|].
  split; [apply (Hcut {| nmtNode.cid := Undef; nmtNode.l := [x01];
                         nmtNode.r := [x02] |}); vm_compute; lia|].
  intros msg.
  apply (Hnofail (leafNode {| nmtLeafNode.cid := Undef;
                              nmtLeafNode.Data := [] |}) [x00] msg).
  reflexivity.
Defined.

Lemma init_enables_identifiers_witness :
  (∃ c, CidFromNamespacedSha256
          (pluginRegistry (sumSha256Namespace8Flagged zeroDigest firstChild))
          zeroHash
          = Returns c)
    ↔ length zeroHash = nmtHashSize.
Proof.
  apply (init_enables_identifiers zeroDigest firstChild emptyRegistry
           (pluginRegistry (sumSha256Namespace8Flagged zeroDigest firstChild))
           zeroHash).
  reflexivity.
Defined.

(** ** The visitors *)

(** What [visit] refuses, and in which order.  A hash that has not the
    namespaced size panics first, with the length in the message, whatever
    the children.  With a hash of that size and the plugin's code
    registered, any number of children other than one or two panics as a
    tree that is not binary. *)
Theorem visit_refusals reg (n : nmtNodeCollector) (hash : list byte)
    (children : list (list byte)) :
  (length hash ≠ nmtHashSize →
     visit reg n hash children =
       Panics (PanicString
         ("malformed hash: "
            +:+ ("invalid namespaced hash length, got: "
                   +:+ pretty (length hash) +:+ ", want: 48")
            +:+ ", codec: " +:+ mh.CodeName reg Sha256Namespace8Flagged))) ∧
  (registered reg → length hash = nmtHashSize →
     length children ≠ 1 → length children ≠ 2 →
     visit reg n hash children
       = Panics (PanicString "expected a binary tree")).
Proof.
  split.
  - intros Hlen. unfold visit, visitNode.
    rewrite (mustCid_fails _ _ _
               (CidFromNamespacedSha256_missized reg hash Hlen)).
    reflexivity.
  - intros Hreg Hlen H1 H2. unfold visit, visitNode.
    rewrite mustCidFromNamespacedSha256_sized by assumption.
    cbn [mbind outcome_bind].
    destruct children as [|c0 [|c1 [|c2 children]]]; cbn in *;
      try reflexivity; lia.
Qed.

Lemma visit_refusals_witness :
  visit (pluginRegistry zeroHashFunc) newNodeCollector [x00] [[x01]] =
    Panics (PanicString
      ("malformed hash: "
         +:+ ("invalid namespaced hash length, got: "
                +:+ pretty (length [x00]) +:+ ", want: 48")
         +:+ ", codec: "
         +:+ mh.CodeName (pluginRegistry zeroHashFunc)
               Sha256Namespace8Flagged)) ∧
  visit (pluginRegistry zeroHashFunc) newNodeCollector zeroHash []
    = Panics (PanicString "expected a binary tree").
Proof.
  split.
  - apply (visit_refusals (pluginRegistry zeroHashFunc) newNodeCollector
             [x00] [[x01]]).
    vm_compute. lia.
  - apply (visit_refusals (pluginRegistry zeroHashFunc) newNodeCollector
             zeroHash []).
    + apply pluginRegistry_registered.
    + reflexivity.
    + discriminate.
    + discriminate.
Defined.

Lemma visitNode_visitable reg (e : emission) :
  registered reg →
  (∃ nd, visitNode reg e.1 e.2 = Returns nd) ↔ visitable e.
Proof.
  intros Hreg. destruct e as [hash children]. unfold visitable. cbn [fst snd].
  split.
  - intros [nd Hnd]. unfold visitNode in Hnd.
    destruct (decide (length hash = nmtHashSize)) as [Hlen|Hlen].
    + split; [exact Hlen|].
      rewrite mustCidFromNamespacedSha256_sized in Hnd by assumption.
      cbn [mbind outcome_bind] in Hnd.
      destruct children as [|c0 [|c1 [|c2 children]]]; cbn in *;
        try discriminate; auto.
    + rewrite (mustCid_fails _ _ _
                 (CidFromNamespacedSha256_missized reg hash Hlen)) in Hnd.
      discriminate.
  - intros [Hlen Harity].
    destruct children as [|c0 [|c1 [|c2 children]]]; cbn in Harity;
      try (exfalso; lia).
    + eexists. apply visitNode_leaf; assumption.
    + eexists. apply visitNode_inner; assumption.
Qed.

Lemma mapM_outcome_Forall2 {A B} (f : A → outcome B) (xs : list A)
    (ys : list B) :
  mapM f xs = Returns ys ↔ Forall2 (λ x y, f x = Returns y) xs ys.
Proof.
  revert ys. induction xs as [|x xs IH]; intros ys; cbn.
  - split.
    + intros [= <-]. constructor.
    + intros Hall. inversion Hall. reflexivity.
  - split.
    + destruct (f x) as [y|?|?] eqn:Hx; cbn; [|discriminate..].
      destruct (mapM f xs) as [ys'|?|?] eqn:Hxs; cbn; [|discriminate..].
      intros [= <-]. constructor; [exact Hx|]. apply IH. reflexivity.
    + intros Hall. inversion Hall as [|? y ? ys' Hx Hxs]; subst.
      rewrite Hx. cbn. apply IH in Hxs. rewrite Hxs. reflexivity.
Qed.

Lemma collect_mapM reg (es : list emission) :
  collect reg es =
    (ns ← mapM (λ e : emission, visitNode reg e.1 e.2) es;
     Returns (reverse ns)).
Proof.
  unfold collect. rewrite visitAll_mapM.
  destruct (mapM _ es) as [ns|err|v]; cbn -[reverse]; [|done..].
  unfold ipldNodes. cbn -[reverse]. rewrite app_nil_r. reflexivity.
Qed.

(** With the plugin's code registered, the collector returns its nodes
    exactly when every callback has a hash of the namespaced size and one
    or two children; it then returns one node for each callback.  It never
    returns an error: a callback it refuses aborts the run. *)
Theorem collect_returns_iff reg (es : list emission) :
  registered reg →
  ((∃ ns, collect reg es = Returns ns) ↔ Forall visitable es) ∧
  (∀ ns, collect reg es = Returns ns → length ns = length es) ∧
  (∀ msg, collect reg es ≠ Fails msg).
Proof.
  intros Hreg. rewrite collect_mapM. split; [|split].
  - split.
    + intros [ns Hns].
      destruct (mapM _ es) as [ns'|?|?] eqn:Hm; [|discriminate..].
      apply mapM_outcome_Forall2 in Hm. clear Hns.
      induction Hm as [|e nd es' ns'' He _ IH]; [constructor|].
      constructor; [|exact IH].
      apply (visitNode_visitable reg e Hreg). eauto.
    + intros Hall.
      assert (∃ ns, mapM (λ e : emission, visitNode reg e.1 e.2) es
                      = Returns ns) as [ns Hns].
      { induction Hall as [|e es' He _ [ns IH]].
        - exists []. reflexivity.
        - apply (visitNode_visitable reg e Hreg) in He as [nd Hnd].
          exists (nd :: ns). cbn. rewrite Hnd. cbn. rewrite IH. reflexivity. }
      rewrite Hns. eexists. reflexivity.
  - intros ns.
    destruct (mapM _ es) as [ns'|?|?] eqn:Hm; [|discriminate..].
    cbn -[reverse]. intros [= <-].
    apply mapM_outcome_Forall2, Forall2_length in Hm.
    rewrite length_reverse. lia.
  - intros msg.
    destruct (mapM _ es) as [ns'|err|?] eqn:Hm; [discriminate| |discriminate].
    exfalso. clear msg. revert err Hm.
    induction es as [|[hash children] es IH]; intros err; cbn; [discriminate|].
    destruct (visitNode reg hash children) as [nd|err'|v] eqn:Hv; cbn.
    + destruct (mapM _ es) as [ns|err''|v]; cbn; [discriminate| |discriminate].
      intros _. exact (IH err'' eq_refl).
    + intros _. unfold visitNode, mustCidFromNamespacedSha256 in Hv.
      destruct (CidFromNamespacedSha256 reg hash); cbn in Hv;
        [|discriminate..].
      destruct children as [|c0 [|c1 [|c2 children]]]; discriminate.
    + discriminate.
Qed.

Lemma collect_returns_iff_witness :
  ((∃ ns, collect (pluginRegistry zeroHashFunc) (postOrder sampleTree)
            = Returns ns)
     ↔ Forall visitable (postOrder sampleTree)) ∧
  (∀ ns, collect (pluginRegistry zeroHashFunc) (postOrder sampleTree)
           = Returns ns →
         length ns = length (postOrder sampleTree)) ∧
  (∀ msg, collect (pluginRegistry zeroHashFunc) (postOrder sampleTree)
            ≠ Fails msg).
Proof.
  apply (collect_returns_iff (pluginRegistry zeroHashFunc)
           (postOrder sampleTree)).
  apply pluginRegistry_registered.
Defined.

Lemma visitNode_reparses reg (e : emission) (nd : Node) :
  leftSized e →
  visitNode reg e.1 e.2 = Returns nd →
  ∃ block, blockOf nd = Returns block ∧ NmtNodeParser block = Returns nd.
Proof.
  destruct e as [hash children]. unfold leftSized. cbn [fst snd].
  intros Hleft Hnd. unfold visitNode in Hnd.
  destruct (mustCidFromNamespacedSha256 reg hash) as [c|?|?];
    [|discriminate..].
  cbn [mbind outcome_bind] in Hnd.
  destruct children as [|c0 [|c1 [|c2 children]]]; cbn in Hnd;
    try discriminate; injection Hnd as <-.
  - eexists. split; [reflexivity|].
    apply NmtNodeParser_leaf.
  - eexists. split; [reflexivity|].
    cbn [nmtNode.RawData nmtNode.Cid nmtNode.cid nmtNode.l nmtNode.r app].
    pose proof (Hleft c0 c1 eq_refl) as Hl.
    rewrite NmtNodeParser_inner by (rewrite length_app; lia).
    rewrite <- Hl, take_app_length, drop_app_length. reflexivity.
Qed.

(** What the collector wrote, the parser reads back.  When the left child
    hash of every two-child callback has the namespaced size, each node the
    collector returns, stored as its raw bytes under its identifier, is
    parsed into that same node. *)
Theorem collected_nodes_reparse reg (es : list emission) (ns : list Node) :
  Forall leftSized es →
  collect reg es = Returns ns →
  Forall (λ nd, ∃ block, blockOf nd = Returns block ∧
                         NmtNodeParser block = Returns nd) ns.
Proof.
  intros Hleft. rewrite collect_mapM.
  destruct (mapM _ es) as [ns'|?|?] eqn:Hm; [|discriminate..].
  cbn -[reverse]. intros [= <-].
  apply Forall_reverse.
  apply mapM_outcome_Forall2 in Hm.
  induction Hm as [|e nd es' ns'' He _ IH]; [constructor|].
  apply Forall_cons in Hleft as [Hl Hleft].
  constructor; [|exact (IH Hleft)].
  exact (visitNode_reparses reg e nd Hl He).
Qed.

Lemma collected_nodes_reparse_witness :
  Forall (λ nd, ∃ block, blockOf nd = Returns block ∧
                         NmtNodeParser block = Returns nd)
    [ innerNode {| nmtNode.cid := NewCidV1 Nmt (namespacedMultihash zeroHash);
                   nmtNode.l := zeroHash; nmtNode.r := zeroHash |};
      leafNode {| nmtLeafNode.cid :=
                    NewCidV1 Nmt (namespacedMultihash zeroHash);
                  nmtLeafNode.Data := [x02] |};
      leafNode {| nmtLeafNode.cid :=
                    NewCidV1 Nmt (namespacedMultihash zeroHash);
                  nmtLeafNode.Data := [x01] |} ].
Proof.
  apply (collected_nodes_reparse (pluginRegistry zeroHashFunc)
           (postOrder sampleTree)).
  - repeat constructor; intros left right [= <- <-]; reflexivity.
  - reflexivity.
Defined.

(** The links of an inner node lead to its children.  For an inner node
    of a tree whose hashes have the namespaced size, the node [visit]
    builds resolves the step ["0"] to the identifier of the node it builds
    for the left child, and the step ["1"] to that of the right child. *)
Theorem Resolve_reaches_children reg (h : list byte) (lt rt : nmtTree) :
  registered reg → hashesSized (TInner h lt rt) →
  ∃ n ndl ndr cl cr,
    visitNode reg (rootEmission (TInner h lt rt)).1
                  (rootEmission (TInner h lt rt)).2
      = Returns (innerNode n) ∧
    visitNode reg (rootEmission lt).1 (rootEmission lt).2 = Returns ndl ∧
    visitNode reg (rootEmission rt).1 (rootEmission rt).2 = Returns ndr ∧
    Node_Cid ndl = Returns cl ∧
    Node_Cid ndr = Returns cr ∧
    ∀ rest,
      nmtNode.Resolve reg n ("0" :: rest)
        = Returns ({| Link_Cid := cl |}, rest) ∧
      nmtNode.Resolve reg n ("1" :: rest)
        = Returns ({| Link_Cid := cr |}, rest).
Proof.
  intros Hreg (Hh & Hl & Hr). cbn [rootHash] in Hh.
  assert (Hroot : ∀ t, hashesSized t →
            ∃ nd, visitNode reg (rootEmission t).1 (rootEmission t).2
                    = Returns nd ∧
                  Node_Cid nd
                    = Returns (NewCidV1 Nmt (namespacedMultihash (rootHash t)))).
  { intros [h' d|h' lt' rt'] [Hsz _]; cbn in Hsz; cbn [rootEmission fst snd].
    - eexists. split; [apply visitNode_leaf; assumption|]. reflexivity.
    - eexists. split; [apply visitNode_inner; assumption|]. reflexivity. }
  destruct (Hroot lt Hl) as (ndl & Hndl & Hcl).
  destruct (Hroot rt Hr) as (ndr & Hndr & Hcr).
  eexists _, ndl, ndr, _, _.
  split; [cbn [rootEmission fst snd]; apply visitNode_inner; assumption|].
  split; [exact Hndl|]. split; [exact Hndr|].
  split; [exact Hcl|]. split; [exact Hcr|].
  intros rest. rewrite Resolve_left, Resolve_right. cbn [nmtNode.l nmtNode.r].
  rewrite !CidFromNamespacedSha256_sized by (try assumption; destruct lt, rt; apply Hl || apply Hr).
  split; reflexivity.
Qed.

Lemma Resolve_reaches_children_witness :
  ∃ n ndl ndr cl cr,
    visitNode (pluginRegistry zeroHashFunc) (rootEmission sampleTree).1
              (rootEmission sampleTree).2
      = Returns (innerNode n) ∧
    visitNode (pluginRegistry zeroHashFunc)
              (rootEmission (TLeaf zeroHash [x01])).1
              (rootEmission (TLeaf zeroHash [x01])).2 = Returns ndl ∧
    visitNode (pluginRegistry zeroHashFunc)
              (rootEmission (TLeaf zeroHash [x02])).1
              (rootEmission (TLeaf zeroHash [x02])).2 = Returns ndr ∧
    Node_Cid ndl = Returns cl ∧
    Node_Cid ndr = Returns cr ∧
    ∀ rest,
      nmtNode.Resolve (pluginRegistry zeroHashFunc) n ("0" :: rest)
        = Returns ({| Link_Cid := cl |}, rest) ∧
      nmtNode.Resolve (pluginRegistry zeroHashFunc) n ("1" :: rest)
        = Returns ({| Link_Cid := cr |}, rest).
Proof.
  apply (Resolve_reaches_children (pluginRegistry zeroHashFunc)
           zeroHash (TLeaf zeroHash [x01]) (TLeaf zeroHash [x02])).
  - apply pluginRegistry_registered.
  - repeat split.
Defined.

(** ** Registration, continued *)

(** A registration that returns is final.  The code is present afterwards,
    every later registration under that code, with any parameters, returns
    the tables unchanged, and the entries of all other codes are what they
    were before. *)
Theorem mustRegister_returns_once codec name defaultLength hashFunc
    (reg reg' : registry) :
  mustRegisterNamespacedCodec codec name defaultLength hashFunc reg
    = Returns reg' →
  is_Some (Codes reg' !! codec) ∧
  (∀ name2 defaultLength2 hashFunc2,
     mustRegisterNamespacedCodec codec name2 defaultLength2 hashFunc2 reg'
       = Returns reg') ∧
  (∀ other, other ≠ codec →
     Codes reg' !! other = Codes reg !! other ∧
     DefaultLengths reg' !! other = DefaultLengths reg !! other ∧
     funcTable reg' !! other = funcTable reg !! other).
Proof.
  intros Hret.
  assert (Hsome : is_Some (Codes reg' !! codec) ∧
    (∀ other, other ≠ codec →
       Codes reg' !! other = Codes reg !! other ∧
       DefaultLengths reg' !! other = DefaultLengths reg !! other ∧
       funcTable reg' !! other = funcTable reg !! other)).
  { revert Hret. unfold mustRegisterNamespacedCodec.
    case_bool_decide as Hpresent; cbn [negb].
    - intros [= <-]. split; [exact Hpresent|]. intros; repeat split.
    - unfold mh.RegisterHashFunc, mh.ValidCode.
      cbn [Codes Names DefaultLengths funcTable].
      rewrite bool_decide_eq_true_2 by (rewrite lookup_insert_eq; eauto).
      cbn [negb]. case_bool_decide; [discriminate|].
      intros [= <-]. cbn [Codes DefaultLengths funcTable]. split.
      + rewrite lookup_insert_eq. eauto.
      + intros other Hother.
        rewrite !lookup_insert_ne by congruence. repeat split. }
  destruct Hsome as [Hsome Hothers].
  split; [exact Hsome|]. split; [|exact Hothers].
  intros. apply mustRegister_present, Hsome.
Qed.

Lemma mustRegister_returns_once_witness :
  is_Some (Codes (pluginRegistry zeroHashFunc) !! Sha256Namespace8Flagged) ∧
  (∀ name2 defaultLength2 hashFunc2,
     mustRegisterNamespacedCodec Sha256Namespace8Flagged name2
       defaultLength2 hashFunc2 (pluginRegistry zeroHashFunc)
       = Returns (pluginRegistry zeroHashFunc)) ∧
  (∀ other, other ≠ Sha256Namespace8Flagged →
     Codes (pluginRegistry zeroHashFunc) !! other
       = Codes emptyRegistry !! other ∧
     DefaultLengths (pluginRegistry zeroHashFunc) !! other
       = DefaultLengths emptyRegistry !! other ∧
     funcTable (pluginRegistry zeroHashFunc) !! other
       = funcTable emptyRegistry !! other).
Proof.
  apply (mustRegister_returns_once Sha256Namespace8Flagged
           "sha2-256-namespace8-flagged" (Z.of_nat nmtHashSize) zeroHashFunc
           emptyRegistry (pluginRegistry zeroHashFunc)).
  reflexivity.
Defined.

(** The one abort of a registration: the code is absent from the table of
    names while a hash function is already stored under it.  The message
    carries the name the call has just written. *)
Theorem mustRegister_aborts_on_stale_function codec name defaultLength
    hashFunc (reg : registry) :
  Codes reg !! codec = None →
  is_Some (funcTable reg !! codec) →
  mustRegisterNamespacedCodec codec name defaultLength hashFunc reg
    = Panics (PanicString ("could not register hash function: " +:+ name)).
Proof.
  intros Hcode Hfunc. unfold mustRegisterNamespacedCodec.
  rewrite bool_decide_eq_false_2 by (rewrite Hcode; intros [? ?]; discriminate).
  cbn [negb]. unfold mh.RegisterHashFunc, mh.ValidCode.
  cbn [Codes Names DefaultLengths funcTable].
  rewrite bool_decide_eq_true_2 by (rewrite lookup_insert_eq; eauto).
  cbn [negb].
  rewrite bool_decide_eq_true_2 by exact Hfunc.
  unfold mh.CodeName. cbn [Codes]. rewrite lookup_insert_eq. reflexivity.
Qed.

Lemma mustRegister_aborts_on_stale_function_witness :
  mustRegisterNamespacedCodec Sha256Namespace8Flagged "nmt" 48 zeroHashFunc
      (Registry ∅ ∅ ∅ {[ Sha256Namespace8Flagged := zeroHashFunc ]})
    = Panics (PanicString ("could not register hash function: " +:+ "nmt")).
Proof.
  apply (mustRegister_aborts_on_stale_function Sha256Namespace8Flagged
           "nmt" 48 zeroHashFunc
           (Registry ∅ ∅ ∅ {[ Sha256Namespace8Flagged := zeroHashFunc ]})).
  - reflexivity.
  - exists zeroHashFunc. reflexivity.
Defined.

(** A registration ends in one of three ways: it returns, or it aborts for
    a stale hash function; the abort for a code that is already present
    cannot happen, and no other panic does. *)
Theorem mustRegister_outcomes codec name defaultLength hashFunc
    (reg : registry) :
  (∃ reg', mustRegisterNamespacedCodec codec name defaultLength hashFunc reg
             = Returns reg') ∨
  (Codes reg !! codec = None ∧ is_Some (funcTable reg !! codec) ∧
   mustRegisterNamespacedCodec codec name defaultLength hashFunc reg
     = Panics (PanicString ("could not register hash function: " +:+ name))).
Proof.
  destruct (Codes reg !! codec) as [present|] eqn:Hcode.
  - left. eexists. apply mustRegister_present. rewrite Hcode. eauto.
  - destruct (funcTable reg !! codec) as [f|] eqn:Hfunc.
    + right. split; [reflexivity|]. split; [eauto|].
      unfold mustRegisterNamespacedCodec.
      rewrite bool_decide_eq_false_2
        by (rewrite Hcode; intros [? ?]; discriminate).
      cbn [negb]. unfold mh.RegisterHashFunc, mh.ValidCode.
      cbn [Codes Names DefaultLengths funcTable].
      rewrite bool_decide_eq_true_2 by (rewrite lookup_insert_eq; eauto).
      cbn [negb].
      rewrite bool_decide_eq_true_2 by (rewrite Hfunc; eauto).
      unfold mh.CodeName. cbn [Codes]. rewrite lookup_insert_eq.
      reflexivity.
    + left. eexists. apply mustRegister_absent; assumption.
Qed.

(** ** The adder *)

Section AdderProperties.

Variable Batch : Type.
Variable Context : Type.
Variable batch_Add : Batch → Context → Node → Batch * option string.

Lemma adderVisitAll_mapM reg (es : list emission)
    (n : NmtNodeAdder Batch Context) :
  adderVisitAll Batch Context batch_Add reg n es =
    (ns ← mapM (λ e : emission, visitNode reg e.1 e.2) es;
     Returns {| batch := foldl (λ b nd, (batch_Add b (ctx _ _ n) nd).1)
                               (batch _ _ n) ns;
                ctx := ctx _ _ n |}).
Proof.
  revert n. induction es as [|[hash children] es IH]; intros n.
  - destruct n; reflexivity.
  - cbn [adderVisitAll mapM fst snd].
    unfold NmtNodeAdder_Visit, visitNode.
    destruct (mustCidFromNamespacedSha256 reg hash) as [c|?|?];
      cbn [mbind outcome_bind]; [|done..].
    destruct children as [|c0 [|c1 [|c2 children]]];
      cbn [length Go.index lookup list_lookup mbind outcome_bind];
      try done.
    + rewrite IH. cbn [batch ctx].
      destruct (mapM _ es) as [ns|?|?]; reflexivity.
    + rewrite IH. cbn [batch ctx].
      destruct (mapM _ es) as [ns|?|?]; reflexivity.
Qed.

(** The adder and the collector build the same nodes.  When the collector
    returns its list, the adder has handed the nodes of that list to the
    batch in the opposite order, the order of the callbacks, each with the
    context it was made with, and has dropped every error the batch
    reported; when the collector panics, the adder panics alike. *)
Theorem adder_follows_collector reg (es : list emission)
    (n : NmtNodeAdder Batch Context) :
  (∀ ns, collect reg es = Returns ns →
     adderVisitAll Batch Context batch_Add reg n es =
       Returns {| batch := foldl (λ b nd, (batch_Add b (ctx _ _ n) nd).1)
                                 (batch _ _ n) (reverse ns);
                  ctx := ctx _ _ n |}) ∧
  (∀ v, collect reg es = Panics v →
     adderVisitAll Batch Context batch_Add reg n es = Panics v).
Proof.
  rewrite collect_mapM, adderVisitAll_mapM.
  destruct (mapM _ es) as [ns'|?|?]; cbn -[reverse]; split;
    intros ? [= <-]; try reflexivity.
  rewrite reverse_involutive. reflexivity.
Qed.

End AdderProperties.

Lemma adder_follows_collector_witness :
  adderVisitAll (list Node) unit logAdd (pluginRegistry zeroHashFunc)
      (NewNmtNodeAdder (list Node) unit tt []) (postOrder sampleTree) =
    Returns {| batch :=
      [ leafNode {| nmtLeafNode.cid :=
                      NewCidV1 Nmt (namespacedMultihash zeroHash);
                    nmtLeafNode.Data := [x01] |};
        leafNode {| nmtLeafNode.cid :=
                      NewCidV1 Nmt (namespacedMultihash zeroHash);
                    nmtLeafNode.Data := [x02] |};
        innerNode {| nmtNode.cid :=
                       NewCidV1 Nmt (namespacedMultihash zeroHash);
                     nmtNode.l := zeroHash; nmtNode.r := zeroHash |} ];
               ctx := tt |}.
Proof.
  apply (proj1 (adder_follows_collector (list Node) unit logAdd
                  (pluginRegistry zeroHashFunc) (postOrder sampleTree)
                  (NewNmtNodeAdder (list Node) unit tt []))
           [ innerNode {| nmtNode.cid :=
                            NewCidV1 Nmt (namespacedMultihash zeroHash);
                          nmtNode.l := zeroHash; nmtNode.r := zeroHash |};
             leafNode {| nmtLeafNode.cid :=
                           NewCidV1 Nmt (namespacedMultihash zeroHash);
                         nmtLeafNode.Data := [x02] |};
             leafNode {| nmtLeafNode.cid :=
                           NewCidV1 Nmt (namespacedMultihash zeroHash);
                         nmtLeafNode.Data := [x01] |} ]).
  reflexivity.
Defined.

(** ** The raw input parser *)

Section RawInputProperties.

Variable nmtT : Type.
Variable nmt_New : nmtT.
Variable nmt_Push : nmtT → list byte → list byte → nmtT * option string.
Variable nmt_Root : nmtT → list emission.

Lemma readLeaves_ragged (fuel : nat) (n : nmtT) (br : list byte) :
  length br ≤ fuel →
  ¬ Nat.divide (shareSize + namespaceSize) (length br) →
  ∃ msg, readLeaves nmtT nmt_Push fuel n br = Fails msg ∧
         ((∀ n' ns d, (nmt_Push n' ns d).2 = None) →
          msg = ErrUnexpectedEOF).
Proof.
  revert n br. induction fuel as [|fuel IH]; intros n br Hfuel Hragged.
  - exfalso. apply Hragged. exists 0. lia.
  - cbn [readLeaves]. unfold io_ReadFull.
    case_bool_decide as Hzero.
    { exfalso. apply Hragged. exists 0. lia. }
    case_bool_decide as Hshort.
    { eexists. split; [reflexivity|]. reflexivity. }
    destruct (nmt_Push n _ _) as [n' [err|]] eqn:Hpush.
    + eexists. split; [reflexivity|].
      intros Hnoerr. specialize (Hnoerr n
        (take namespaceSize (take (shareSize + namespaceSize) br))
        (drop namespaceSize (take (shareSize + namespaceSize) br))).
      rewrite Hpush in Hnoerr. discriminate.
    + apply IH.
      * rewrite length_drop.
        unfold shareSize, namespaceSize in *. lia.
      * intros [k Hk]. apply Hragged. exists (S k).
        rewrite length_drop in Hk.
        unfold shareSize, namespaceSize in *. lia.
Qed.

Lemma readLeaves_records (records : list (list byte)) :
  Forall (λ leaf, length leaf = shareSize + namespaceSize) records →
  ∀ (fuel : nat) (n : nmtT),
    length (concat records) ≤ fuel →
    readLeaves nmtT nmt_Push fuel n (concat records)
      = pushAll nmtT nmt_Push n records.
Proof.
  induction 1 as [|leaf records Hleaf _ IH]; intros fuel n Hfuel.
  - destruct fuel; reflexivity.
  - cbn [concat] in *. rewrite length_app in Hfuel.
    destruct fuel as [|fuel];
      [unfold shareSize, namespaceSize in *; lia|].
    cbn [readLeaves pushAll]. unfold io_ReadFull.
    rewrite bool_decide_eq_false_2
      by (rewrite length_app; unfold shareSize, namespaceSize in *; lia).
    rewrite bool_decide_eq_false_2
      by (rewrite length_app; unfold shareSize, namespaceSize in *; lia).
    rewrite <- Hleaf. rewrite !take_app_length, drop_app_length.
    destruct (nmt_Push n _ _) as [n' [err|]]; [reflexivity|].
    apply IH. unfold shareSize, namespaceSize in *. lia.
Qed.

(** An input whose length is not a multiple of the 264 bytes of a leaf
    never yields nodes: the parser returns an error, and when no leaf is
    refused by the tree that error is the unexpected end of the input. *)
Theorem RawInputParser_ragged_input reg (r : list byte) :
  ¬ Nat.divide (shareSize + namespaceSize) (length r) →
  ∃ msg,
    DataSquareRowOrColumnRawInputParser nmtT nmt_New nmt_Push nmt_Root reg r
      = Fails msg ∧
    ((∀ n ns d, (nmt_Push n ns d).2 = None) → msg = ErrUnexpectedEOF).
Proof.
  intros Hragged. unfold DataSquareRowOrColumnRawInputParser.
  destruct (readLeaves_ragged (length r) nmt_New r (le_n _) Hragged)
    as (msg & -> & Hmsg).
  exists msg. split; [reflexivity | exact Hmsg].
Qed.

Lemma whole_leaves_split (k : nat) (r : list byte) :
  length r = k * (shareSize + namespaceSize) →
  ∃ records, r = concat records ∧
    Forall (λ leaf, length leaf = shareSize + namespaceSize) records.
Proof.
  revert r. induction k as [|k IH]; intros r Hlen.
  - exists []. split; [|constructor].
    destruct r; [reflexivity | discriminate].
  - destruct (IH (drop (shareSize + namespaceSize) r)) as (records & Hr & Hall).
    { rewrite length_drop. lia. }
    exists (take (shareSize + namespaceSize) r :: records). split.
    + cbn [concat]. rewrite <- Hr. symmetry. apply take_drop.
    + constructor; [|exact Hall]. rewrite length_take. lia.
Qed.

(** An input made of whole leaves is cut into its leaves of 264 bytes,
    which are pushed one by one, in order, each split after the 8 bytes of
    its namespace; the first leaf the tree refuses ends the parse with the
    tree's error, and otherwise the nodes are those the collector gathers
    while the root is computed. *)
Theorem RawInputParser_whole_leaves reg (r : list byte) :
  Nat.divide (shareSize + namespaceSize) (length r) →
  ∃ records, r = concat records ∧
    Forall (λ leaf, length leaf = shareSize + namespaceSize) records ∧
    DataSquareRowOrColumnRawInputParser nmtT nmt_New nmt_Push nmt_Root reg r
      = (n ← pushAll nmtT nmt_Push nmt_New records;
         collect reg (nmt_Root n)).
Proof.
  intros [k Hk].
  destruct (whole_leaves_split k r Hk) as (records & Hr & Hall).
  exists records. split; [exact Hr|]. split; [exact Hall|].
  unfold DataSquareRowOrColumnRawInputParser.
  rewrite Hr at 2. rewrite readLeaves_records; [reflexivity | exact Hall |].
  rewrite <- Hr. apply le_n.
Qed.

End RawInputProperties.

Lemma RawInputParser_ragged_input_witness :
  ∃ msg,
    DataSquareRowOrColumnRawInputParser (list (list byte)) [] silentPush
        (λ _, []) emptyRegistry (replicate 265 x00)
      = Fails msg ∧
    ((∀ n ns d, (silentPush n ns d).2 = None) → msg = ErrUnexpectedEOF).
Proof.
  apply (RawInputParser_ragged_input (list (list byte)) [] silentPush
           (λ _, []) emptyRegistry (replicate 265 x00)).
  intros [k Hk]. rewrite length_replicate in Hk.
  unfold shareSize, namespaceSize in Hk. lia.
Defined.

Lemma RawInputParser_whole_leaves_witness :
  ∃ records,
    replicate 528 x00 = concat records ∧
    Forall (λ leaf, length leaf = shareSize + namespaceSize) records ∧
    DataSquareRowOrColumnRawInputParser (list (list byte)) [] silentPush
        (λ _, []) emptyRegistry (replicate 528 x00)
      = (n ← pushAll (list (list byte)) silentPush [] records;
         collect emptyRegistry []).
Proof.
  apply (RawInputParser_whole_leaves (list (list byte)) [] silentPush
           (λ _, []) emptyRegistry (replicate 528 x00)).
  exists 2. reflexivity.
Defined.

(** ** The outcomes of the parser *)

(** The parser panics on truncated inner blocks and on nothing else: a
    block that starts with the inner prefix and has fewer than 49 bytes.
    It returns an error exactly on a first byte that is neither prefix. *)
Theorem NmtNodeParser_outcomes (block : Block) :
  ((∃ v, NmtNodeParser block = Panics v) ↔
     head (block_RawData block) = Some NodePrefix ∧
     length (block_RawData block) < 1 + nmtHashSize) ∧
  ((∃ msg, NmtNodeParser block = Fails msg) ↔
     ∃ b, head (block_RawData block) = Some b ∧
          b ≠ LeafPrefix ∧ b ≠ NodePrefix).
Proof.
  destruct block as [data c]. cbn [block_RawData].
  destruct data as [|b rest].
  { rewrite NmtNodeParser_empty. split; split.
    - intros [? ?]; discriminate.
    - intros [? _]; discriminate.
    - intros [? ?]; discriminate.
    - intros (? & ? & _); discriminate. }
  cbn [head length].
  destruct (decide (b = LeafPrefix)) as [->|Hleaf].
  { rewrite NmtNodeParser_leaf. split; split.
    - intros [? ?]; discriminate.
    - intros [? _]; discriminate.
    - intros [? ?]; discriminate.
    - intros (? & [= <-] & ? & _); done. }
  destruct (decide (b = NodePrefix)) as [->|Hinner].
  - destruct (decide (nmtHashSize ≤ length rest)) as [Hlen|Hlen].
    + rewrite NmtNodeParser_inner by exact Hlen. split; split.
      * intros [? ?]; discriminate.
      * intros [_ ?]; lia.
      * intros [? ?]; discriminate.
      * intros (? & [= <-] & _ & ?); done.
    + rewrite NmtNodeParser_inner_short by lia. split; split.
      * intros _. split; [reflexivity | lia].
      * intros _. eexists. reflexivity.
      * intros [? ?]; discriminate.
      * intros (? & [= <-] & _ & ?); done.
  - rewrite NmtNodeParser_other by assumption. split; split.
    + intros [? ?]; discriminate.
    + intros [[= ?] _]; done.
    + intros _. exists b. done.
    + intros _. eexists. reflexivity.
Qed.

(** Whatever non-empty block the parser turns into a node, well-formed or
    not, the raw bytes of the node are the bytes of the block.  The empty
    block is the exception: its node has the one byte of the leaf prefix
    as raw bytes. *)
Theorem RawData_after_parse_any (block : Block) (nd : Node) :
  NmtNodeParser block = Returns nd →
  (block_RawData block ≠ [] →
     Node_RawData nd = Returns (block_RawData block)) ∧
  (block_RawData block = [] → Node_RawData nd = Returns [LeafPrefix]).
Proof.
  destruct block as [data c]. cbn [block_RawData].
  destruct data as [|b rest].
  { rewrite NmtNodeParser_empty. intros [= <-]. split; [done|].
    reflexivity. }
  intros Hparse. split; [intros _ | discriminate].
  destruct (decide (b = LeafPrefix)) as [->|Hleaf].
  { rewrite NmtNodeParser_leaf in Hparse. injection Hparse as <-.
    reflexivity. }
  destruct (decide (b = NodePrefix)) as [->|Hinner].
  - destruct (decide (nmtHashSize ≤ length rest)) as [Hlen|Hlen].
    + rewrite NmtNodeParser_inner in Hparse by exact Hlen.
      injection Hparse as <-.
      cbn [Node_RawData]. unfold nmtNode.RawData. cbn [nmtNode.l nmtNode.r].
      rewrite take_drop. reflexivity.
    + rewrite NmtNodeParser_inner_short in Hparse by lia. discriminate.
  - rewrite NmtNodeParser_other in Hparse by assumption. discriminate.
Qed.

Lemma RawData_after_parse_any_witness :
  Node_RawData (innerNode {| nmtNode.cid := Undef;
                             nmtNode.l := replicate 48 x00;
                             nmtNode.r := replicate 49 x00 |})
    = Returns (block_RawData oversizedInnerBlock).
Proof.
  apply (RawData_after_parse_any oversizedInnerBlock
           (innerNode {| nmtNode.cid := Undef;
                         nmtNode.l := replicate 48 x00;
                         nmtNode.r := replicate 49 x00 |})).
  - reflexivity.
  - discriminate.
Defined.
